(** * The prompt-to-ffmpeg compiler of the agentic video editor

    Shallow embedding of [buildFfmpegArgs]
    (src/video-agent/components/video-agent.tsx) and of the parts of
    [@/lib/agent] it imports.

    Numbers.  A JavaScript number is modelled as an exact rational ([Q]):
    comparison, subtraction, [Math.max] and division are the exact ones, and
    [toFixed] is the digit algorithm of ECMA-262 applied to the exact value.
    Rounding to binary64, NaN, the infinities and the exponent notation that
    [toFixed] switches to from 1e21 on are outside the model; times in
    seconds, speed factors and brightness values are far from all of them.
    A decimal literal stands for its exact value, so a rendering can differ
    from the binary64 one in the last digit when the exact value is half-way
    between two renderings; no statement below is about such a value.
    A speed factor is never zero (the parser only keeps positive factors), so
    [1 / factor] is the rational inverse.
    The program subtracts the start of a trim from its end in binary64, and
    the result is the exact difference when that difference is itself a
    binary64 value ([binary64] below): the text written after [-t] is stated
    for those trims only, and below 1e21, the place of [-t] for all. *)

From Stdlib Require Import ZArith QArith Qround Qabs List String Ascii Bool Lia Lqa.
From Stdlib Require Import Numbers.DecimalString Sorting.Sorted Sorting.Permutation.
Import ListNotations.

Local Open Scope string_scope.
Local Open Scope list_scope.
Local Open Scope Q_scope.

(** ** Numbers *)

Module Num.

(** [a > b] on numbers. *)
Definition gtb (a b : Q) : bool := negb (Qle_bool a b).

(** [a < b] on numbers. *)
Definition ltb (a b : Q) : bool := gtb b a.

(** [Math.max(a, b)]. *)
Definition max (a b : Q) : Q := if Qle_bool a b then b else a.

(** [n] copies of the character 0. *)
Fixpoint zeros (n : nat) : string :=
  match n with
  | O => ""
  | S n' => String "0" (zeros n')
  end.

(** The decimal digits of a natural number, "0" for zero. *)
Definition digits (n : Z) : string :=
  NilZero.string_of_uint (N.to_uint (Z.to_N n)).

(** The integer [n] for which [n / 10^f - x] is closest to zero, the
    larger one when there are two ([x] is not negative here). *)
Definition nearest (x : Q) (f : nat) : Z :=
  Qfloor (x * inject_Z (10 ^ Z.of_nat f) + (1 # 2)).

(** [Number.prototype.toFixed(f)] as ECMA-262 gives it for a finite number
    below 1e21: the sign, the nearest integer [n] to [x * 10^f], its digits
    [m], padded with zeros up to [f + 1] characters, and the point before
    the last [f] of them. *)
Definition toFixed (x : Q) (f : nat) : string :=
  let s := if ltb x 0 then "-" else "" in
  let x := if ltb x 0 then - x else x in
  let m := digits (nearest x f) in
  let m :=
    match f with
    | O => m
    | _ =>
        let k := String.length m in
        let m := if (k <=? f)%nat then (zeros (f + 1 - k) ++ m)%string else m in
        let k := String.length m in
        let a := substring 0 (k - f) m in
        let b := substring (k - f) f m in
        (a ++ "." ++ b)%string
    end in
  (s ++ m)%string.

End Num.

(** ** Data model *)

(** Modelled from the spec: the two crop modes of section 3, declared in
    [@/lib/agent]; the compiler tests for ['square'] and treats anything else
    as the portrait fill. *)
Inductive CropMode : Type :=
| Square
| PortraitFill.

(** Modelled from the spec: the [Operation] union, whose declaration is in
    [@/lib/agent] and not among the sources (section 3).  The kinds and the
    fields are the ones [buildFfmpegArgs] reads.  It reads both fields of a
    trim through [typeof ... === 'number'] guards, so both are optional here;
    the Trim of the specification, whose start is always there, is
    [Trim (Some start) e]. *)
Inductive Operation : Type :=
| Trim (start end_ : option Q)
| Grayscale
| Speed (factor : Q)
| Mute
| Brightness (value : Q)
| Crop (mode : CropMode).

(** The output format, ['mp4' | 'gif']. *)
Inductive Format : Type :=
| Mp4
| Gif.

(** Modelled from the spec: [AgentPlan], declared in [@/lib/agent] (the Plan
    of section 3): what [planEditingSteps] returns and [processVideo] hands,
    field by field, to [buildFfmpegArgs]. *)
Record AgentPlan : Type := mkPlan {
  operations : list Operation;
  outputExtension : Format
}.

(** [op.kind === 'trim']. *)
Definition is_trim (op : Operation) : bool :=
  match op with
  | Trim _ _ => true
  | _ => false
  end.

(** [op.kind === 'mute']. *)
Definition is_mute (op : Operation) : bool :=
  match op with
  | Mute => true
  | _ => false
  end.

(** [trimOperation?.start] and [trimOperation?.end]. *)
Definition trim_start (trimOperation : option Operation) : option Q :=
  match trimOperation with
  | Some (Trim s _) => s
  | _ => None
  end.

Definition trim_end (trimOperation : option Operation) : option Q :=
  match trimOperation with
  | Some (Trim _ e) => e
  | _ => None
  end.

(** [v ?? 0]. *)
Definition or_zero (v : option Q) : Q :=
  match v with
  | Some q => q
  | None => 0
  end.

(** [typeof v === 'number' && v > 0]. *)
Definition is_positive_number (v : option Q) : bool :=
  match v with
  | Some q => Num.gtb q 0
  | None => false
  end.

(** A text that begins with a dash, which is how ffmpeg tells an option
    from a file name or a value. *)
Definition isOption (s : string) : bool :=
  match s with
  | String "-" _ => true
  | _ => false
  end.

(** The argument list has the option [opt] immediately followed by [value]. *)
Definition carries (args : list string) (opt value : string) : Prop :=
  exists i, nth_error args i = Some opt /\ nth_error args (S i) = Some value.

(** [Array.prototype.join(',')]. *)
Definition join (l : list string) : string := String.concat "," l.

(** ** The filter-graph compiler *)

(** The three variables the [forEach] of [buildFfmpegArgs] updates. *)
Record Filters : Type := mkFilters {
  videoFilters : list string;
  audioFilters : list string;
  disableAudio : bool
}.

Section Compiler.

(** [clampAudioTempoChain] is imported from [@/lib/agent], which is not
    among the sources: the compiler is parametric in it.  Its result is
    only ever joined with commas, so it is taken as the list of texts that
    [join] sees. *)
Variable clampAudioTempoChain : Q -> list string.

(** The body of the [switch] in the [forEach], one operation at a time. *)
Definition lower (st : Filters) (operation : Operation) : Filters :=
  match operation with
  | Grayscale =>
      mkFilters (videoFilters st ++ ["hue=s=0"]) (audioFilters st) (disableAudio st)
  | Speed factor =>
      let video := videoFilters st ++ [("setpts=" ++ Num.toFixed (1 / factor) 4 ++ "*PTS")%string] in
      let tempoChain := clampAudioTempoChain factor in
      if (0 <? List.length tempoChain)%nat
      then mkFilters video (audioFilters st ++ [join tempoChain]) (disableAudio st)
      else mkFilters video (audioFilters st) (disableAudio st)
  | Mute =>
      mkFilters (videoFilters st) (audioFilters st) true
  | Brightness value =>
      mkFilters (videoFilters st ++ [("eq=brightness=" ++ Num.toFixed value 2)%string])
                (audioFilters st) (disableAudio st)
  | Crop mode =>
      match mode with
      | Square =>
          mkFilters (videoFilters st ++ ["crop=min(iw,ih):min(iw,ih)"])
                    (audioFilters st) (disableAudio st)
      | PortraitFill =>
          mkFilters (videoFilters st
                       ++ ["scale=720:-2:force_original_aspect_ratio=increase,crop=720:1280"])
                    (audioFilters st) (disableAudio st)
      end
  | Trim _ _ => st
  end.

(** [operations.forEach(...)] from the three empty variables. *)
Definition lowerAll (operations : list Operation) : Filters :=
  fold_left lower operations (mkFilters [] [] false).

(** What one operation alone appends to [videoFilters] and to
    [audioFilters]. *)
Definition ownVideoFilters (operation : Operation) : list string :=
  videoFilters (lower (mkFilters [] [] false) operation).

Definition ownAudioFilters (operation : Operation) : list string :=
  audioFilters (lower (mkFilters [] [] false) operation).

(** [videoFilters] when it is joined: after the [forEach] and after the
    [fps=12] of the gif format. *)
Definition compiledVideoFilters (operations : list Operation) (format : Format)
  : list string :=
  let st := lowerAll operations in
  match format with
  | Gif => videoFilters st ++ ["fps=12"]
  | Mp4 => videoFilters st
  end.

Definition buildFfmpegArgs (operations : list Operation) (format : Format)
           (input output : string) : list string :=
  let trimOperation := find is_trim operations in
  let start := or_zero (trim_start trimOperation) in
  let hasStart := is_positive_number (trim_start trimOperation) in
  let hasEnd := is_positive_number (trim_end trimOperation) in
  let args := if hasStart then ["-ss"; Num.toFixed start 2] else [] in
  let args := args ++ ["-i"; input] in
  let args :=
    if hasEnd then
      let duration := Num.max 0 (or_zero (trim_end trimOperation) - start) in
      if Num.gtb duration 0 then args ++ ["-t"; Num.toFixed duration 2] else args
    else args in
  let st := lowerAll operations in
  let videoFilters := compiledVideoFilters operations format in
  let args :=
    if (0 <? List.length videoFilters)%nat
    then args ++ ["-vf"; join videoFilters] else args in
  let args :=
    if disableAudio st then args ++ ["-an"]
    else if (0 <? List.length (audioFilters st))%nat
         then args ++ ["-af"; join (audioFilters st)] else args in
  let args :=
    match format with
    | Mp4 =>
        let args := args ++ ["-c:v"; "libx264"; "-preset"; "veryfast"; "-pix_fmt"; "yuv420p"] in
        let args := if negb (disableAudio st) then args ++ ["-c:a"; "aac"] else args in
        args ++ ["-movflags"; "faststart"]
    | Gif => args ++ ["-loop"; "0"]
    end in
  args ++ [output].

(** The tempo texts do not begin with a dash. *)
Definition plainTempo : Prop :=
  forall factor, Forall (fun s => isOption s = false) (clampAudioTempoChain factor).

End Compiler.

(** ** The tempo chain *)

(** The audio tempo primitive takes factors from 0.5 to 2.0. *)
Definition inRange (x : Q) : bool := Qle_bool (1 # 2) x && Qle_bool x 2.

(** Modelled from the spec: the loop of [clampAudioTempoChain] in
    [@/lib/agent], which is not among the sources (section 4.3, the Numeric
    Clamper).  While the remainder is out of range, [step] (2.0 above the
    range, 0.5 below it) is appended to the chain and taken out of the
    remainder, so that the chain times the remainder stays the factor: above
    the range the remainder is divided by 2.0, below it the tempo applied so
    far is multiplied by 0.5 and the remainder doubles.  The remainder is
    appended when it is in range.  [rounds] bounds the loop. *)
Fixpoint tempoLoop (step : Q) (rounds : nat) (remainder : Q) : list Q :=
  match rounds with
  | O => [remainder]
  | S n =>
      if inRange remainder then [remainder]
      else step :: tempoLoop step n (remainder / step)
  end.

(** A number of rounds after which the loop has stopped by itself, whatever
    the positive factor: the bit lengths of its numerator and denominator. *)
Definition tempoRounds (factor : Q) : nat :=
  Z.to_nat (Z.log2_up (Qnum factor)) + Z.to_nat (Z.log2_up (Zpos (Qden factor))).

(** Modelled from the spec: [clampTempo] of section 4.3, the function that
    [@/lib/agent] exports as [clampAudioTempoChain] and that is not among the
    sources.  The chain is the list of the numeric tempo factors. *)
Definition clampTempo (factor : Q) : list Q :=
  if inRange factor then
    if Qeq_bool factor 1 then [] else [factor]
  else if Num.gtb factor 2 then tempoLoop 2 (tempoRounds factor) factor
  else tempoLoop (1 # 2) (tempoRounds factor) factor.

(** The product of a chain. *)
Definition product (chain : list Q) : Q := fold_right Qmult 1 chain.

(** An instance of the parameter [clampAudioTempoChain] for the examples:
    the factors of [clampTempo], each as the text of an [atempo] filter. *)
Definition atempoChain (factor : Q) : list string :=
  map (fun x => ("atempo=" ++ Num.toFixed x 3)%string) (clampTempo factor).

(** ** The prompt parser and the plan assembler *)

(** ASCII lower case, for the case-insensitive rules. *)
Definition lowerChar (c : ascii) : ascii :=
  let n := nat_of_ascii c in
  if ((65 <=? n) && (n <=? 90))%nat then ascii_of_nat (n + 32) else c.

Fixpoint toLowerCase (s : string) : string :=
  match s with
  | EmptyString => EmptyString
  | String c rest => String (lowerChar c) (toLowerCase rest)
  end.

(** [hay.includes(needle)]. *)
Fixpoint includes (needle hay : string) : bool :=
  prefix needle hay
  || match hay with
     | EmptyString => false
     | String _ rest => includes needle rest
     end.

(** The text mentions one of the words, in any case. *)
Definition mentions (words : list string) (prompt : string) : bool :=
  existsb (fun w => includes w (toLowerCase prompt)) words.

Definition grayscaleWords : list string :=
  ["black and white"; "grayscale"; "greyscale"; "monochrome"].
Definition muteWords : list string := ["mute"; "remove audio"; "no audio"; "silent"].
Definition squareWords : list string := ["square"].
Definition portraitWords : list string := ["portrait"; "9:16"; "vertical"].
Definition gifWords : list string := ["gif"].

(** Brightness is kept within -1.0 .. 1.0. *)
Definition clampBrightness (v : Q) : Q :=
  if Num.ltb v (-1) then -1 else if Num.gtb v 1 then 1 else v.

(** The place of an operation in the canonical order: Trim first, then
    Grayscale, Speed, Brightness, Crop, Mute. *)
Definition rank (op : Operation) : nat :=
  match op with
  | Trim _ _ => 0
  | Grayscale => 1
  | Speed _ => 2
  | Brightness _ => 3
  | Crop _ => 4
  | Mute => 5
  end.


(** A degenerate operation: an end that is not after the start, a speed
    factor that is not positive. *)
Definition valid (op : Operation) : bool :=
  match op with
  | Trim s (Some e) => Num.gtb e (or_zero s)
  | Speed factor => Num.gtb factor 0
  | _ => true
  end.

(** The first operation of rank [r], if there is one. *)
Definition pick (r : nat) (ops : list Operation) : list Operation :=
  match find (fun op => (rank op =? r)%nat) ops with
  | Some op => [op]
  | None => []
  end.

(** Modelled from the spec: the Plan Assembler of [@/lib/agent], which is not
    among the sources (sections 4.2 and 7).  It takes what the parser found,
    in any order, leaves the degenerate operations out, keeps the first
    operation of each kind and puts the kinds in canonical order. *)
Definition assemble (found : list Operation) (hint : Format) : AgentPlan :=
  let ok := filter valid found in
  mkPlan (flat_map (fun r => pick r ok) (seq 0 6)) hint.


Section Planner.

(** The three recognisers that read numbers out of the text.  The spec
    gives their phrases by example only, so the parser is parametric in
    them: each returns what it found, in the order of the text.  A trim
    window is its start and its end, either of which may be missing. *)
Variable trimWindows : string -> list (option Q * option Q).
Variable speedFactors : string -> list Q.
Variable brightnessValues : string -> list Q.

(** Modelled from the spec: the Prompt Parser of [@/lib/agent], which is
    not among the sources (section 4.1).  Every rule looks at the whole
    text on its own; a missing start of a trim is 0. *)
Definition parse (prompt : string) : list Operation * Format :=
  (map (fun w => Trim (Some (or_zero (fst w))) (snd w)) (trimWindows prompt)
     ++ (if mentions grayscaleWords prompt then [Grayscale] else [])
     ++ map Speed (speedFactors prompt)
     ++ (if mentions muteWords prompt then [Mute] else [])
     ++ map (fun v => Brightness (clampBrightness v)) (brightnessValues prompt)
     ++ (if mentions squareWords prompt then [Crop Square] else [])
     ++ (if mentions portraitWords prompt then [Crop PortraitFill] else []),
   if mentions gifWords prompt then Gif else Mp4).

(** Modelled from the spec: [planEditingSteps] of [@/lib/agent], which is
    not among the sources: the parser followed by the assembler. *)
Definition planEditingSteps (prompt : string) : AgentPlan :=
  let (found, hint) := parse prompt in assemble found hint.

End Planner.

(** Instances of the recognisers for the examples: no trim and no brightness
    is ever recognised, and the speed is 2 when the text has [2x]. *)
Definition noWindows (prompt : string) : list (option Q * option Q) := [].
Definition noValues (prompt : string) : list Q := [].
Definition twiceFactor (prompt : string) : list Q :=
  if includes "2x" (toLowerCase prompt) then [2] else [].

(** ** The caller: file names, progress and the handlers of the component *)

(** An operation that appends a video filter: every kind but trim and mute. *)
Definition is_filter (op : Operation) : bool :=
  match op with
  | Trim _ _ | Mute => false
  | _ => true
  end.

(** [s.lastIndexOf(c)] for a one-character [c]; -1 when [c] is not in [s].
    A text is its sequence of bytes here: the dot is one byte, and no byte of
    a longer UTF-8 sequence equals it, so the suffix that [slice] cuts at the
    last dot is the same text as with UTF-16 units. *)
Fixpoint lastIndexOf (s : string) (c : ascii) : Z :=
  match s with
  | EmptyString => (-1)%Z
  | String a rest =>
      let later := lastIndexOf rest c in
      if (0 <=? later)%Z then (later + 1)%Z
      else if Ascii.eqb a c then 0%Z else (-1)%Z
  end.

(** [s.slice(start)]: from [start], counted from the end when negative, and
    kept within the text. *)
Definition slice (s : string) (start : Z) : string :=
  let len := Z.of_nat (String.length s) in
  let from := if (start <? 0)%Z then Z.max (len + start) 0 else Z.min start len in
  substring (Z.to_nat from) (String.length s - Z.to_nat from) s.

Definition getExtension (name : string) : string :=
  let dot := lastIndexOf name "." in
  if (dot =? -1)%Z then ".mp4" else slice name dot.

(** The text of a format in a template literal. *)
Definition formatText (format : Format) : string :=
  match format with
  | Mp4 => "mp4"
  | Gif => "gif"
  end.

(** The two names [processVideo] gives to ffmpeg, and the arguments it asks
    [buildFfmpegArgs] for. *)
Definition inputName (fileName : string) : string :=
  ("input" ++ getExtension fileName)%string.

Definition outputName (plan : AgentPlan) : string :=
  ("output." ++ formatText (outputExtension plan))%string.

Definition processVideoArgs (clampAudioTempoChain : Q -> list string)
           (plan : AgentPlan) (fileName : string) : list string :=
  buildFfmpegArgs clampAudioTempoChain (operations plan) (outputExtension plan)
                  (inputName fileName) (outputName plan).

(** [Math.round]: the nearest integer, the upper one at a half. *)
Definition Math_round (x : Q) : Z := Qfloor (x + (1 # 2)).

(** The progress that the [progress] event of ffmpeg sets, and the width of
    the bar drawn from it, both in percent. *)
Definition onProgress (progress : Q) : Z :=
  Z.min 99 (Math_round (progress * 100)).

Definition barWidth (progress : Z) : Z := Z.max progress 10.

Definition SUPPORTED_INPUT_TYPES : list string :=
  ["video/mp4"; "video/quicktime"; "video/webm"; "video/ogg"].

Module VideoAgent.

(** What the handlers read of a [File]. *)
Record File : Type := mkFile {
  name : string;
  type : string
}.

(** The state of the component that the handlers below read and set. *)
Record State : Type := mkState {
  prompt : string;
  sourceFile : option File;
  sourceUrl : option string;
  agentPlan : option AgentPlan;
  outputUrl : option string;
  error : option string
}.

Section Handlers.

(** [String.prototype.trim], [planEditingSteps] of [@/lib/agent] and
    [URL.createObjectURL]: the handlers are parametric in the three. *)
Variable trim : string -> string.
Variable planOf : string -> AgentPlan.
Variable createObjectURL : File -> string.

(** [setPrompt(event.target.value)]. *)
Definition setPrompt (st : State) (value : string) : State :=
  mkState value (sourceFile st) (sourceUrl st) (agentPlan st) (outputUrl st) (error st).

(** [handlePlan]: a prompt that is blank once trimmed sets the error and
    keeps the plan there was. *)
Definition handlePlan (st : State) : State :=
  if String.eqb (trim (prompt st)) ""
  then mkState (prompt st) (sourceFile st) (sourceUrl st) (agentPlan st) (outputUrl st)
               (Some "Describe the edit you want to make.")
  else mkState (prompt st) (sourceFile st) (sourceUrl st)
               (Some (planOf (prompt st))) (outputUrl st) None.

(** [handleFileChange], on [event.target.files?.[0]]. *)
Definition handleFileChange (st : State) (file : option File) : State :=
  match file with
  | None =>
      mkState (prompt st) (sourceFile st) (sourceUrl st) (agentPlan st) (outputUrl st) None
  | Some f =>
      if existsb (String.eqb (type f)) SUPPORTED_INPUT_TYPES
      then mkState (prompt st) (Some f) (Some (createObjectURL f)) None None None
      else mkState (prompt st) (sourceFile st) (sourceUrl st) (agentPlan st) (outputUrl st)
                   (Some "Unsupported file type. Please use MP4, MOV, WEBM, or OGG.")
  end.

(** [processVideo] up to its [try]: the state it leaves and, when it goes on,
    the plan it compiles.  The handlers read the state of the last render, so
    [agentPlan] is still the old one after [handlePlan()] has been called. *)
Definition processVideo (st : State) : State * option AgentPlan :=
  match sourceFile st with
  | None =>
      (mkState (prompt st) (sourceFile st) (sourceUrl st) (agentPlan st) (outputUrl st)
               (Some "Upload a video before running edits."), None)
  | Some _ =>
      let cleared :=
        mkState (prompt st) (sourceFile st) (sourceUrl st) (agentPlan st) (outputUrl st)
                None in
      let planned :=
        match agentPlan st with
        | None => handlePlan cleared
        | Some _ => cleared
        end in
      let plan :=
        match agentPlan st with
        | Some p => p
        | None => planOf (prompt st)
        end in
      (mkState (prompt planned) (sourceFile planned) (sourceUrl planned) (Some plan)
               (outputUrl planned) (error planned), Some plan)
  end.

End Handlers.

End VideoAgent.

(** Instances of the parameters of the handlers for the examples: a [trim]
    that strips the ASCII white space, the parser with the example
    recognisers, and object URLs made of the name of the file. *)
Definition isSpace (c : ascii) : bool :=
  existsb (Ascii.eqb c) [" "; "009"; "010"; "011"; "012"; "013"]%char.

Fixpoint trimStart (s : string) : string :=
  match s with
  | EmptyString => EmptyString
  | String c rest => if isSpace c then trimStart rest else s
  end.

Fixpoint trimEnd (s : string) : string :=
  match s with
  | EmptyString => EmptyString
  | String c rest =>
      match trimEnd rest with
      | EmptyString => if isSpace c then EmptyString else String c EmptyString
      | kept => String c kept
      end
  end.

Definition trimAscii (s : string) : string := trimEnd (trimStart s).

Definition examplePlanOf : string -> AgentPlan :=
  planEditingSteps noWindows twiceFactor noValues.

Definition blobUrl (file : VideoAgent.File) : string :=
  ("blob:" ++ VideoAgent.name file)%string.

(** A number that binary64 holds exactly: an integer of at most 53 bits times
    a power of two within the exponent range.  The difference of two such
    numbers is computed exactly in binary64 when it is such a number too. *)
Definition binary64 (x : Q) : Prop :=
  exists m e : Z,
    (Z.abs m < 2 ^ 53)%Z /\ (-1074 <= e <= 971)%Z /\ x == inject_Z m * 2 ^ e.



(** ** Properties of the number rendering *)

Example toFixed_seconds : Num.toFixed 5 2 = "5.00".
Proof. reflexivity. Qed.

Example toFixed_inverse_speed : Num.toFixed (1 / 1.2) 4 = "0.8333".
Proof. reflexivity. Qed.

Example toFixed_negative : Num.toFixed (-0.3) 2 = "-0.30".
Proof. reflexivity. Qed.

Example toFixed_carry : Num.toFixed 99.996 2 = "100.00".
Proof. reflexivity. Qed.

Example toFixed_no_fraction : Num.toFixed 123.456 0 = "123".
Proof. reflexivity. Qed.

Lemma gtb_true (a b : Q) : Num.gtb a b = true <-> b < a.
Proof.
  unfold Num.gtb. rewrite negb_true_iff. split; intro H.
  - apply Qnot_le_lt. intro Hle. apply Qle_bool_iff in Hle. congruence.
  - destruct (Qle_bool a b) eqn:E; [|reflexivity].
    apply Qle_bool_iff in E. exfalso. exact (Qlt_not_le _ _ H E).
Qed.

Lemma gtb_false (a b : Q) : Num.gtb a b = false <-> a <= b.
Proof.
  unfold Num.gtb. rewrite negb_false_iff. apply Qle_bool_iff.
Qed.

Lemma positive_not_negative (x : Q) : Num.gtb x 0 = true -> Num.ltb x 0 = false.
Proof.
  intro H. apply gtb_true in H. unfold Num.ltb. apply gtb_false.
  apply Qlt_le_weak, H.
Qed.

Lemma digits_not_option (n : Z) : isOption (Num.digits n) = false.
Proof.
  unfold Num.digits. destruct (N.to_uint (Z.to_N n)); reflexivity.
Qed.

Lemma zeros_not_option (n : nat) (m : string) :
  isOption m = false -> isOption (Num.zeros n ++ m)%string = false.
Proof.
  destruct n; intro H; [exact H | reflexivity].
Qed.

Lemma head_not_option (n : nat) (m t : string) :
  isOption m = false -> isOption (substring 0 n m ++ "." ++ t)%string = false.
Proof.
  destruct n, m; intro H; try reflexivity.
  simpl in *. destruct a as [[] [] [] [] [] [] [] []]; try reflexivity; discriminate.
Qed.

(** A number that is not negative is rendered without a sign. *)
Lemma toFixed_not_option (x : Q) (f : nat) :
  Num.ltb x 0 = false -> isOption (Num.toFixed x f) = false.
Proof.
  intro H. unfold Num.toFixed. rewrite H. cbn [append].
  destruct f as [|f].
  - apply digits_not_option.
  - apply head_not_option.
    destruct (_ <=? _)%nat.
    + apply zeros_not_option, digits_not_option.
    + apply digits_not_option.
Qed.

Lemma append_not_option (a b : string) :
  isOption a = false -> isOption (a ++ "," ++ b)%string = false.
Proof.
  destruct a; intro H; [reflexivity | exact H].
Qed.

Lemma join_not_option (l : list string) :
  Forall (fun s => isOption s = false) l -> isOption (join l) = false.
Proof.
  destruct 1 as [|a l Ha Hl]; [reflexivity|].
  unfold join. cbn [concat]. destruct l; [exact Ha|].
  apply append_not_option, Ha.
Qed.

(** ** Properties of the compiler *)

Section CompilerFacts.

Variable clampAudioTempoChain : Q -> list string.

Local Abbreviation lower := (lower clampAudioTempoChain).
Local Abbreviation lowerAll := (lowerAll clampAudioTempoChain).
Local Abbreviation ownVideoFilters := (ownVideoFilters clampAudioTempoChain).
Local Abbreviation ownAudioFilters := (ownAudioFilters clampAudioTempoChain).
Local Abbreviation compiledVideoFilters := (compiledVideoFilters clampAudioTempoChain).
Local Abbreviation buildFfmpegArgs := (buildFfmpegArgs clampAudioTempoChain).
Local Abbreviation plainTempo := (plainTempo clampAudioTempoChain).

(** *** The [forEach] as a fold *)

Lemma lower_video (st : Filters) (op : Operation) :
  videoFilters (lower st op) = videoFilters st ++ ownVideoFilters op.
Proof.
  unfold ownVideoFilters.
  destruct op as [s e| |factor| |value|[]]; simpl;
    try (destruct (_ <? _)%nat; simpl);
    rewrite ?app_nil_r; reflexivity.
Qed.

Lemma lower_audio (st : Filters) (op : Operation) :
  audioFilters (lower st op) = audioFilters st ++ ownAudioFilters op.
Proof.
  unfold ownAudioFilters.
  destruct op as [s e| |factor| |value|[]]; simpl;
    try (destruct (_ <? _)%nat; simpl);
    rewrite ?app_nil_r; reflexivity.
Qed.

Lemma lower_mute (st : Filters) (op : Operation) :
  disableAudio (lower st op) = disableAudio st || is_mute op.
Proof.
  destruct op as [s e| |factor| |value|[]]; simpl;
    try (destruct (_ <? _)%nat; simpl);
    rewrite ?orb_false_r, ?orb_true_r; reflexivity.
Qed.

(** What each kind of operation appends to the video filters. *)
Lemma ownVideoFilters_eq (op : Operation) :
  ownVideoFilters op
  = match op with
    | Grayscale => ["hue=s=0"]
    | Speed factor => [("setpts=" ++ Num.toFixed (1 / factor) 4 ++ "*PTS")%string]
    | Brightness value => [("eq=brightness=" ++ Num.toFixed value 2)%string]
    | Crop Square => ["crop=min(iw,ih):min(iw,ih)"]
    | Crop PortraitFill =>
        ["scale=720:-2:force_original_aspect_ratio=increase,crop=720:1280"]
    | Trim _ _ | Mute => []
    end.
Proof.
  unfold ownVideoFilters.
  destruct op as [s e| |factor| |value|[]]; simpl;
    try (destruct (_ <? _)%nat; simpl); reflexivity.
Qed.

Lemma fold_video (ops : list Operation) (st : Filters) :
  videoFilters (fold_left lower ops st)
  = videoFilters st ++ flat_map ownVideoFilters ops.
Proof.
  revert st. induction ops as [|op ops IH]; intro st; cbn [fold_left flat_map].
  - now rewrite app_nil_r.
  - now rewrite IH, lower_video, app_assoc.
Qed.

Lemma fold_audio (ops : list Operation) (st : Filters) :
  audioFilters (fold_left lower ops st)
  = audioFilters st ++ flat_map ownAudioFilters ops.
Proof.
  revert st. induction ops as [|op ops IH]; intro st; cbn [fold_left flat_map].
  - now rewrite app_nil_r.
  - now rewrite IH, lower_audio, app_assoc.
Qed.

Lemma fold_mute (ops : list Operation) (st : Filters) :
  disableAudio (fold_left lower ops st) = disableAudio st || existsb is_mute ops.
Proof.
  revert st. induction ops as [|op ops IH]; intro st; cbn [fold_left existsb].
  - now rewrite orb_false_r.
  - now rewrite IH, lower_mute, orb_assoc.
Qed.

Lemma lowerAll_video (ops : list Operation) :
  videoFilters (lowerAll ops) = flat_map ownVideoFilters ops.
Proof. unfold lowerAll. now rewrite fold_video. Qed.

Lemma lowerAll_audio (ops : list Operation) :
  audioFilters (lowerAll ops) = flat_map ownAudioFilters ops.
Proof. unfold lowerAll. now rewrite fold_audio. Qed.

Lemma lowerAll_mute (ops : list Operation) :
  disableAudio (lowerAll ops) = existsb is_mute ops.
Proof. unfold lowerAll. now rewrite fold_mute. Qed.

Lemma muted_iff (ops : list Operation) :
  disableAudio (lowerAll ops) = true <-> In Mute ops.
Proof.
  rewrite lowerAll_mute, existsb_exists. split.
  - intros [op [Hin Hop]]. destruct op; try discriminate. exact Hin.
  - intro Hin. exists Mute. now split.
Qed.

(** A trim leaves the three variables as they are. *)
Lemma lowerAll_without_trims (ops : list Operation) :
  lowerAll ops = lowerAll (filter (fun op => negb (is_trim op)) ops).
Proof.
  unfold lowerAll. generalize (mkFilters [] [] false).
  induction ops as [|op ops IH]; intro st; [reflexivity|].
  destruct op; cbn [filter is_trim negb fold_left]; apply IH.
Qed.

(** *** The argument list, part by part *)

Lemma buildFfmpegArgs_parts (ops : list Operation) (format : Format)
      (input output : string) :
  let trimOperation := find is_trim ops in
  let start := or_zero (trim_start trimOperation) in
  let duration := Num.max 0 (or_zero (trim_end trimOperation) - start) in
  let st := lowerAll ops in
  buildFfmpegArgs ops format input output
  = (if is_positive_number (trim_start trimOperation)
     then ["-ss"; Num.toFixed start 2] else [])
    ++ ["-i"; input]
    ++ (if is_positive_number (trim_end trimOperation) && Num.gtb duration 0
        then ["-t"; Num.toFixed duration 2] else [])
    ++ (if (0 <? List.length (compiledVideoFilters ops format))%nat
        then ["-vf"; join (compiledVideoFilters ops format)] else [])
    ++ (if disableAudio st then ["-an"]
        else if (0 <? List.length (audioFilters st))%nat
             then ["-af"; join (audioFilters st)] else [])
    ++ match format with
       | Mp4 => ["-c:v"; "libx264"; "-preset"; "veryfast"; "-pix_fmt"; "yuv420p"]
                  ++ (if disableAudio st then [] else ["-c:a"; "aac"])
                  ++ ["-movflags"; "faststart"]
       | Gif => ["-loop"; "0"]
       end
    ++ [output].
Proof.
  intros. unfold buildFfmpegArgs.
  fold trimOperation. fold start. fold duration. fold st.
  destruct (is_positive_number (trim_start trimOperation));
    destruct (is_positive_number (trim_end trimOperation));
    destruct (Num.gtb duration 0);
    destruct (0 <? List.length (compiledVideoFilters ops format))%nat;
    destruct (disableAudio st);
    destruct (0 <? List.length (audioFilters st))%nat;
    destruct format; reflexivity.
Qed.

(** *** An option and its value *)

Lemma carries_here (opt value : string) (rest : list string) :
  carries (opt :: value :: rest) opt value.
Proof. exists 0%nat. split; reflexivity. Qed.

Lemma carries_app_r (front back : list string) (opt value : string) :
  carries back opt value -> carries (front ++ back) opt value.
Proof.
  intros [i [Ho Hv]]. exists (List.length front + i)%nat.
  induction front as [|a front IH]; [split; assumption | exact IH].
Qed.

Lemma carries_app_l (front back : list string) (opt value : string) :
  carries front opt value -> carries (front ++ back) opt value.
Proof.
  intros [i [Ho Hv]]. exists i. split.
  - rewrite nth_error_app1; [exact Ho|]. apply nth_error_Some. congruence.
  - rewrite nth_error_app1; [exact Hv|]. apply nth_error_Some. congruence.
Qed.

(** *** Which texts of the list begin with a dash *)

Lemma ownVideoFilters_not_option (op : Operation) :
  Forall (fun s => isOption s = false) (ownVideoFilters op).
Proof.
  unfold ownVideoFilters.
  destruct op as [s e| |factor| |value|[]]; simpl;
    try (destruct (_ <? _)%nat; simpl); repeat constructor.
Qed.

Lemma videoFilters_not_option (ops : list Operation) (format : Format) :
  isOption (join (compiledVideoFilters ops format)) = false.
Proof.
  apply join_not_option. unfold compiledVideoFilters.
  assert (H : Forall (fun s => isOption s = false) (videoFilters (lowerAll ops))).
  { rewrite lowerAll_video. apply Forall_forall. intros s Hs.
    apply in_flat_map in Hs. destruct Hs as [op [_ Hs]].
    exact (proj1 (Forall_forall _ _) (ownVideoFilters_not_option op) s Hs). }
  destruct format; [exact H|].
  apply Forall_app. split; [exact H | repeat constructor].
Qed.

Lemma audioFilters_not_option (ops : list Operation) :
  plainTempo -> isOption (join (audioFilters (lowerAll ops))) = false.
Proof.
  intro Hplain. apply join_not_option. rewrite lowerAll_audio.
  apply Forall_forall. intros s Hs.
  apply in_flat_map in Hs. destruct Hs as [op [_ Hs]].
  unfold ownAudioFilters in Hs.
  destruct op as [? ?| |factor| |value|[]]; simpl in Hs; try contradiction.
  destruct (_ <? _)%nat; simpl in Hs; [|contradiction].
  destruct Hs as [<-|[]]. apply join_not_option, Hplain.
Qed.

(** The options of the argument list, when the two file names are not
    option-like and neither is the value of [-af]: each is one that the
    compiler wrote, under the condition it tests before writing it. *)
Lemma options_of_args (ops : list Operation) (format : Format)
      (input output s : string) :
  let trimOperation := find is_trim ops in
  let start := or_zero (trim_start trimOperation) in
  let duration := Num.max 0 (or_zero (trim_end trimOperation) - start) in
  let st := lowerAll ops in
  isOption input = false -> isOption output = false ->
  (disableAudio st = false -> isOption (join (audioFilters st)) = false) ->
  In s (buildFfmpegArgs ops format input output) -> isOption s = true ->
  s = "-i"
  \/ (s = "-ss" /\ is_positive_number (trim_start trimOperation) = true)
  \/ (s = "-t" /\ is_positive_number (trim_end trimOperation) = true
               /\ Num.gtb duration 0 = true)
  \/ s = "-vf"
  \/ (s = "-an" /\ disableAudio st = true)
  \/ (s = "-af" /\ disableAudio st = false)
  \/ (format = Mp4 /\ In s ["-c:v"; "-preset"; "-pix_fmt"; "-movflags"])
  \/ (format = Mp4 /\ s = "-c:a" /\ disableAudio st = false)
  \/ (format = Gif /\ s = "-loop").
Proof.
  intros trimOperation start duration st Hin Hout Haf Hs Hopt.
  rewrite buildFfmpegArgs_parts in Hs.
  fold trimOperation start duration st in Hs.
  assert (Hvalue : forall v, isOption v = false -> s = v -> False)
    by (intros v Hv ->; congruence).
  repeat (apply in_app_or in Hs; destruct Hs as [Hs|Hs]).
  - destruct (is_positive_number (trim_start trimOperation)) eqn:Hstart; [|destruct Hs].
    destruct Hs as [<-|[<-|[]]]; [tauto|].
    exfalso. apply (Hvalue (Num.toFixed start 2)); [|reflexivity].
    apply toFixed_not_option, positive_not_negative.
    unfold start. destruct (trim_start trimOperation); [exact Hstart | discriminate].
  - destruct Hs as [<-|[<-|[]]]; [tauto | congruence].
  - destruct (is_positive_number (trim_end trimOperation)) eqn:Hend; [|destruct Hs].
    destruct (Num.gtb duration 0) eqn:Hdur; [|destruct Hs].
    destruct Hs as [<-|[<-|[]]]; [tauto|].
    exfalso. apply (Hvalue (Num.toFixed duration 2)); [|reflexivity].
    apply toFixed_not_option, positive_not_negative, Hdur.
  - destruct (_ <? _)%nat; [|destruct Hs].
    destruct Hs as [<-|[<-|[]]]; [tauto|].
    exfalso. apply (Hvalue (join (compiledVideoFilters ops format))); [|reflexivity].
    apply videoFilters_not_option.
  - destruct (disableAudio st) eqn:Hmute.
    + destruct Hs as [<-|[]]. tauto.
    + destruct (_ <? _)%nat; [|destruct Hs].
      destruct Hs as [<-|[<-|[]]]; [tauto|].
      exfalso. apply (Hvalue (join (audioFilters st))); [|reflexivity].
      apply Haf. reflexivity.
  - destruct format.
    + repeat (apply in_app_or in Hs; destruct Hs as [Hs|Hs]).
      * simpl in Hs. intuition (subst; simpl in *; try discriminate; tauto).
      * destruct (disableAudio st) eqn:Hmute; [destruct Hs|].
        simpl in Hs. intuition (subst; simpl in *; try discriminate; tauto).
      * simpl in Hs. intuition (subst; simpl in *; try discriminate; tauto).
    + simpl in Hs. intuition (subst; simpl in *; try discriminate; tauto).
  - destruct Hs as [<-|[]]. congruence.
Qed.

(** *** The claims about the compiler *)

(** C1.  The plan of the default prompt, [Grayscale, Speed 1.2, Mute] together
    with [Trim] from 5 with no end (wherever the trim stands in the list), for
    the mp4 format: the arguments have [-vf] followed by exactly
    [hue=s=0,setpts=0.8333*PTS], they have [-an], and they have no [-t]. *)
Theorem default_prompt_arguments (pre post : list Operation) (input output : string) :
  pre ++ post = [Grayscale; Speed 1.2; Mute] ->
  isOption input = false -> isOption output = false ->
  let args := buildFfmpegArgs (pre ++ Trim (Some 5) None :: post) Mp4 input output in
  carries args "-vf" "hue=s=0,setpts=0.8333*PTS"
  /\ In "-an" args
  /\ ~ In "-t" args.
Proof.
  intros Hops Hin Hout.
  assert (Hargs : buildFfmpegArgs (pre ++ Trim (Some 5) None :: post) Mp4 input output
                  = ["-ss"; "5.00"; "-i"; input; "-vf"; "hue=s=0,setpts=0.8333*PTS";
                     "-an"; "-c:v"; "libx264"; "-preset"; "veryfast"; "-pix_fmt";
                     "yuv420p"; "-movflags"; "faststart"; output]).
  { rewrite buildFfmpegArgs_parts. unfold compiledVideoFilters.
    rewrite lowerAll_video, lowerAll_mute.
    destruct pre as [|a [|b [|c [|d rest]]]]; simpl in Hops;
      inversion Hops; subst; cbn [app flat_map]; rewrite !ownVideoFilters_eq;
      reflexivity. }
  cbv zeta. rewrite Hargs. split; [|split].
  - exists 4%nat. split; reflexivity.
  - simpl. tauto.
  - simpl. intros [H|[H|[H|[H|H]]]]; try discriminate.
    + subst input. discriminate.
    + decompose [or] H; try discriminate; try contradiction.
      subst output. discriminate.
Qed.

(** C2.  Mute dominance: when the operations contain [Mute], whatever else
    they contain and for both formats, the arguments have [-an] and have
    neither [-af] nor [-c:a]. *)
Theorem mute_dominance (ops : list Operation) (format : Format)
        (input output : string) :
  In Mute ops ->
  isOption input = false -> isOption output = false ->
  let args := buildFfmpegArgs ops format input output in
  In "-an" args /\ ~ In "-af" args /\ ~ In "-c:a" args.
Proof.
  intros Hmute Hin Hout args. apply muted_iff in Hmute.
  assert (Hopts := fun s => options_of_args ops format input output s Hin Hout).
  cbv zeta in Hopts. rewrite Hmute in Hopts.
  split; [|split].
  - unfold args. rewrite buildFfmpegArgs_parts. cbv zeta. rewrite Hmute.
    rewrite !in_app_iff. do 4 right. left. left. reflexivity.
  - intro H. apply Hopts in H; [|discriminate|reflexivity].
    simpl in H. intuition discriminate.
  - intro H. apply Hopts in H; [|discriminate|reflexivity].
    simpl in H. intuition discriminate.
Qed.


(** C4.  The gif format: [fps=12] is the last filter of the chain, after the
    filters that the operations asked for, so after [hue=s=0] when Grayscale
    is among them; the arguments carry that chain under [-vf], carry
    [-loop 0], and have neither [-c:v] nor [-c:a]. *)
Theorem gif_output_handling (ops : list Operation) (input output : string) :
  plainTempo ->
  isOption input = false -> isOption output = false ->
  let chain := compiledVideoFilters ops Gif in
  let args := buildFfmpegArgs ops Gif input output in
  chain = flat_map ownVideoFilters ops ++ ["fps=12"]
  /\ (In Grayscale ops ->
      exists before after, chain = before ++ "hue=s=0" :: after ++ ["fps=12"])
  /\ carries args "-vf" (join chain)
  /\ carries args "-loop" "0"
  /\ ~ In "-c:v" args
  /\ ~ In "-c:a" args.
Proof.
  intros Hplain Hin Hout chain args.
  assert (Hchain : chain = flat_map ownVideoFilters ops ++ ["fps=12"]).
  { unfold chain, compiledVideoFilters. now rewrite lowerAll_video. }
  assert (Hopts := fun s => options_of_args ops Gif input output s Hin Hout
                              (fun _ => audioFilters_not_option ops Hplain)).
  cbv zeta in Hopts.
  split; [exact Hchain|]. split; [|split; [|split; [|split]]].
  - intro Hgray. apply in_split in Hgray. destruct Hgray as [l1 [l2 ->]].
    rewrite Hchain, flat_map_app. cbn [flat_map]. rewrite ownVideoFilters_eq.
    exists (flat_map ownVideoFilters l1), (flat_map ownVideoFilters l2).
    now rewrite <- app_assoc.
  - unfold args. rewrite buildFfmpegArgs_parts. cbv zeta. fold chain.
    replace (0 <? List.length chain)%nat with true.
    + apply carries_app_r. do 2 apply carries_app_r.
      apply carries_app_l, carries_here.
    + rewrite Hchain, length_app, Nat.add_comm. reflexivity.
  - unfold args. rewrite buildFfmpegArgs_parts. cbv zeta.
    do 5 apply carries_app_r. apply carries_here.
  - intro H. apply Hopts in H; [|reflexivity].
    simpl in H. intuition discriminate.
  - intro H. apply Hopts in H; [|reflexivity].
    simpl in H. intuition discriminate.
Qed.

(** C8.  The first trim wins: two operation lists with the same first trim
    and the same operations other than trims compile to the same arguments,
    so a trim after the first one changes nothing. *)
Theorem first_trim_wins (ops ops' : list Operation) (format : Format)
        (input output : string) :
  find is_trim ops = find is_trim ops' ->
  filter (fun op => negb (is_trim op)) ops
  = filter (fun op => negb (is_trim op)) ops' ->
  buildFfmpegArgs ops format input output
  = buildFfmpegArgs ops' format input output.
Proof.
  intros Hfirst Hrest.
  unfold buildFfmpegArgs, compiledVideoFilters.
  rewrite (lowerAll_without_trims ops), (lowerAll_without_trims ops').
  now rewrite Hfirst, Hrest.
Qed.

(** A trim whose end is not after its start, or not positive, gives no [-t],
    and a [-t] is only written for a duration that is positive as a number. *)
Lemma duration_option_only_if_positive (ops : list Operation) (format : Format)
      (input output : string) :
  plainTempo ->
  isOption input = false -> isOption output = false ->
  In "-t" (buildFfmpegArgs ops format input output) ->
  exists e, trim_end (find is_trim ops) = Some e
            /\ 0 < e
            /\ or_zero (trim_start (find is_trim ops)) < e.
Proof.
  intros Hplain Hin Hout H.
  apply options_of_args in H; try assumption; try reflexivity;
    [|intros _; apply audioFilters_not_option, Hplain].
  simpl in H.
  destruct H as [H|[[H _]|[[_ [He Hd]]|H]]]; try discriminate.
  - destruct (trim_end (find is_trim ops)) as [e|]; [|discriminate].
    exists e. cbn [is_positive_number or_zero] in *.
    apply gtb_true in He. apply gtb_true in Hd.
    repeat split; try assumption.
    unfold Num.max in Hd. destruct (Qle_bool 0 _) eqn:E.
    + apply (Qplus_lt_l _ _ (- or_zero (trim_start (find is_trim ops)))).
      rewrite Qplus_opp_r. exact Hd.
    + exfalso. exact (Qlt_irrefl _ Hd).
  - intuition discriminate.
Qed.

(** C9.  A trim from 5 to 5.004 is well formed, its duration 0.004 passes the
    test [duration > 0], and the arguments carry [-t 0.00]: the value of the
    option is zero. *)
Theorem short_trim_duration_is_rendered_zero :
  buildFfmpegArgs [Trim (Some 5) (Some 5.004)] Mp4 "input.mp4" "output.mp4"
  = ["-ss"; "5.00"; "-i"; "input.mp4"; "-t"; "0.00";
     "-c:v"; "libx264"; "-preset"; "veryfast"; "-pix_fmt"; "yuv420p";
     "-c:a"; "aac"; "-movflags"; "faststart"; "output.mp4"]
  /\ Num.toFixed 0 2 = "0.00".
Proof. split; reflexivity. Qed.

(** C10.  No operation, mp4: the arguments are the input, the full re-encode
    and the output name, which is last; [-ss], [-t], [-vf], [-af] and [-an]
    can only be in the list as the input or output name itself. *)
Theorem empty_plan_compilation (input output : string) :
  let args := buildFfmpegArgs [] Mp4 input output in
  args = ["-i"; input; "-c:v"; "libx264"; "-preset"; "veryfast"; "-pix_fmt";
          "yuv420p"; "-c:a"; "aac"; "-movflags"; "faststart"; output]
  /\ last args "" = output
  /\ (forall s, In s ["-ss"; "-t"; "-vf"; "-af"; "-an"] -> In s args ->
                 s = input \/ s = output).
Proof.
  cbv zeta. split; [reflexivity|]. split; [reflexivity|].
  intros s Hs Hin. simpl in Hs, Hin.
  decompose [or] Hs; try contradiction; subst s;
    decompose [or] Hin; try contradiction; try discriminate; auto.
Qed.

End CompilerFacts.

(** ** Properties of the tempo chain *)

Section TempoChain.

(** A factor that the tempo primitive takes. *)
Let accepted (x : Q) : Prop := (1 # 2) <= x /\ x <= 2.

Lemma inRange_true (x : Q) : inRange x = true <-> (1 # 2) <= x /\ x <= 2.
Proof.
  unfold inRange. rewrite andb_true_iff, !Qle_bool_iff. reflexivity.
Qed.

Lemma inRange_false (x : Q) : inRange x = false -> x < 1 # 2 \/ 2 < x.
Proof.
  intro H. destruct (Qlt_le_dec x (1 # 2)) as [|Hlow]; [now left|].
  destruct (Qlt_le_dec 2 x) as [|Hhigh]; [now right|].
  rewrite (proj2 (inRange_true x)) in H; [discriminate | now split].
Qed.

Lemma power_of_two_step (n : nat) :
  inject_Z (2 ^ Z.of_nat (S n)) == 2 * inject_Z (2 ^ Z.of_nat n).
Proof.
  rewrite Nat2Z.inj_succ, Z.pow_succ_r by lia.
  now rewrite inject_Z_mult.
Qed.

(** Above the range: [rounds] halvings are enough for a remainder of at most
    [2 ^ (rounds + 1)]. *)
Lemma tempoLoop_down (rounds : nat) (r : Q) :
  1 < r -> r <= inject_Z (2 ^ Z.of_nat (S rounds)) ->
  Forall accepted (tempoLoop 2 rounds r) /\ product (tempoLoop 2 rounds r) == r.
Proof.
  revert r. induction rounds as [|n IH]; intros r Hlow Hhigh.
  - change (inject_Z (2 ^ Z.of_nat 1)) with 2 in Hhigh.
    split; [repeat constructor; unfold accepted; lra | simpl; lra].
  - cbn [tempoLoop]. destruct (inRange r) eqn:E.
    + apply inRange_true in E.
      split; [constructor; [exact E | constructor] | simpl; lra].
    + apply inRange_false in E. rewrite power_of_two_step in Hhigh.
      destruct (IH (r / 2)) as [Hall Hprod].
      * unfold Qdiv. change (/ 2) with (1 # 2). lra.
      * unfold Qdiv. change (/ 2) with (1 # 2). lra.
      * split; [constructor; [unfold accepted; lra | exact Hall]|].
        cbn [product fold_right]. fold (product (tempoLoop 2 n (r / 2))).
        rewrite Hprod. field.
Qed.

(** Below the range: [rounds] doublings are enough for a remainder of at
    least half of [1 / 2 ^ rounds]. *)
Lemma tempoLoop_up (rounds : nat) (r : Q) :
  0 < r -> r < 1 -> 1 <= r * inject_Z (2 ^ Z.of_nat (S rounds)) ->
  Forall accepted (tempoLoop (1 # 2) rounds r)
  /\ product (tempoLoop (1 # 2) rounds r) == r.
Proof.
  revert r. induction rounds as [|n IH]; intros r Hpos Hhigh Hlow.
  - change (inject_Z (2 ^ Z.of_nat 1)) with 2 in Hlow.
    split; [repeat constructor; unfold accepted; lra | simpl; lra].
  - cbn [tempoLoop]. destruct (inRange r) eqn:E.
    + apply inRange_true in E.
      split; [constructor; [exact E | constructor] | simpl; lra].
    + apply inRange_false in E. rewrite power_of_two_step in Hlow.
      destruct (IH (r / (1 # 2))) as [Hall Hprod].
      * unfold Qdiv. change (/ (1 # 2)) with 2. lra.
      * unfold Qdiv. change (/ (1 # 2)) with 2. lra.
      * unfold Qdiv. change (/ (1 # 2)) with 2. lra.
      * split; [constructor; [unfold accepted; lra | exact Hall]|].
        cbn [product fold_right]. fold (product (tempoLoop (1 # 2) n (r / (1 # 2)))).
        rewrite Hprod. field.
Qed.

Lemma tempoLoop_last (step : Q) (rounds : nat) (r : Q) :
  exists front x, tempoLoop step rounds r = front ++ [x].
Proof.
  revert r. induction rounds as [|n IH]; intro r; cbn [tempoLoop].
  - now exists [], r.
  - destruct (inRange r); [now exists [], r|].
    destruct (IH (r / step)) as [front [x ->]]. now exists (step :: front), x.
Qed.

(** When the loop has stopped on its own test, that is with a last element
    in range, more rounds give the same chain. *)
Lemma tempoLoop_stable (step : Q) (rounds more : nat) (r : Q) :
  inRange (last (tempoLoop step rounds r) 0) = true ->
  tempoLoop step (rounds + more) r = tempoLoop step rounds r.
Proof.
  revert r. induction rounds as [|n IH]; intros r Hlast.
  - cbn [tempoLoop last] in Hlast. cbn [Nat.add tempoLoop].
    destruct more; [reflexivity|]. cbn [tempoLoop]. now rewrite Hlast.
  - cbn [Nat.add tempoLoop] in *. destruct (inRange r); [reflexivity|].
    f_equal. apply IH.
    destruct (tempoLoop_last step n (r / step)) as [front [x E]].
    rewrite E in *. rewrite last_last.
    change (step :: front ++ [x]) with ((step :: front) ++ [x]) in Hlast.
    now rewrite last_last in Hlast.
Qed.

Lemma le_power_log2_up (a : Z) : (a <= 2 ^ Z.log2_up a)%Z.
Proof.
  destruct (Z_lt_le_dec 1 a) as [H|H].
  - apply Z.log2_up_spec, H.
  - rewrite Z.log2_up_eqn0 by exact H. simpl. lia.
Qed.

Lemma le_power_rounds (a : Z) (n : nat) :
  (Z.to_nat (Z.log2_up a) <= n)%nat -> (a <= 2 ^ Z.of_nat n)%Z.
Proof.
  intro H. apply Z.le_trans with (2 ^ Z.log2_up a)%Z; [apply le_power_log2_up|].
  apply Z.pow_le_mono_r; [lia|].
  pose proof (Z.log2_up_nonneg a). lia.
Qed.

(** The chain of a positive factor: every element is accepted by the tempo
    primitive, the last one included, so the loop stopped on its own test,
    and the product is the factor. *)
Lemma clampTempo_chain (factor : Q) :
  0 < factor ->
  Forall accepted (clampTempo factor) /\ product (clampTempo factor) == factor.
Proof.
  intro Hpos. unfold clampTempo.
  destruct (inRange factor) eqn:E.
  - apply inRange_true in E. destruct (Qeq_bool factor 1) eqn:E1.
    + apply Qeq_bool_iff in E1. split; [constructor | simpl; lra].
    + split; [constructor; [exact E | constructor] | simpl; lra].
  - apply inRange_false in E. destruct (Num.gtb factor 2) eqn:E2.
    + apply gtb_true in E2. apply tempoLoop_down; [lra|].
      destruct factor as [p q]. unfold tempoRounds, Qle, inject_Z. cbn [Qnum Qden].
      assert (Hp : (p <= 2 ^ Z.of_nat (S (Z.to_nat (Z.log2_up p)
                                            + Z.to_nat (Z.log2_up (Z.pos q)))))%Z)
        by (apply le_power_rounds; lia).
      nia.
    + apply gtb_false in E2. destruct E as [E|E]; [|lra].
      apply tempoLoop_up; [exact Hpos | lra |].
      destruct factor as [p q]. unfold tempoRounds, Qle, Qlt, Qmult, inject_Z in *.
      cbn [Qnum Qden] in *.
      assert (Hq : (Z.pos q <= 2 ^ Z.of_nat (S (Z.to_nat (Z.log2_up p)
                                                  + Z.to_nat (Z.log2_up (Z.pos q)))))%Z)
        by (apply le_power_rounds; lia).
      nia.
Qed.

(** The bound [tempoRounds] is enough: the loop of a positive factor has
    stopped on its own test, and more rounds give the same chain. *)
Lemma clampTempo_rounds_enough (factor : Q) (step : Q) (more : nat) :
  0 < factor -> inRange factor = false ->
  step = (if Num.gtb factor 2 then 2 else 1 # 2) ->
  tempoLoop step (tempoRounds factor + more) factor = clampTempo factor.
Proof.
  intros Hpos Hout ->.
  assert (Hchain := clampTempo_chain factor Hpos).
  unfold clampTempo in *. rewrite Hout in *.
  assert (Hstop : forall step,
             Forall accepted (tempoLoop step (tempoRounds factor) factor) ->
             tempoLoop step (tempoRounds factor + more) factor
             = tempoLoop step (tempoRounds factor) factor).
  { intros step Hall. apply tempoLoop_stable.
    destruct (tempoLoop_last step (tempoRounds factor) factor) as [front [x E]].
    rewrite E in *. rewrite last_last. apply inRange_true.
    apply Forall_app in Hall. destruct Hall as [_ Hx]. now inversion Hx. }
  destruct (Num.gtb factor 2); apply Hstop, Hchain.
Qed.

(** C5.  The product invariant of the tempo chain: for a factor above 0 and
    up to 10, every element of [clampTempo factor] is between 0.5 and 2.0 and
    the product of the chain is the factor, exactly and so within 1e-6; the
    chain of 1 is empty. *)
Theorem tempo_chain_product_invariant (factor : Q) :
  0 < factor -> factor <= 10 ->
  Forall (fun x => (1 # 2) <= x /\ x <= 2) (clampTempo factor)
  /\ product (clampTempo factor) == factor
  /\ Qabs (product (clampTempo factor) - factor) <= 1 # 1000000
  /\ clampTempo 1 = [].
Proof.
  intros Hpos _. destruct (clampTempo_chain factor Hpos) as [Hall Hprod].
  split; [exact Hall|]. split; [exact Hprod|]. split; [|reflexivity].
  rewrite Hprod. setoid_replace (factor - factor) with 0 by ring.
  discriminate.
Qed.

End TempoChain.

(** ** Properties of the planner *)

(** *** Words and clauses *)








Section PlannerFacts.

Variable trimWindows : string -> list (option Q * option Q).
Variable speedFactors : string -> list Q.
Variable brightnessValues : string -> list Q.
Variable clampAudioTempoChain : Q -> list string.

Local Abbreviation parse := (parse trimWindows speedFactors brightnessValues).
Local Abbreviation planEditingSteps :=
  (planEditingSteps trimWindows speedFactors brightnessValues).








End PlannerFacts.

(** ** The theorems at concrete inputs *)

Lemma atempoChain_plain : plainTempo atempoChain.
Proof.
  intro factor. apply Forall_forall. intros s Hs.
  apply in_map_iff in Hs. destruct Hs as [x [<- _]]. reflexivity.
Qed.

Lemma default_prompt_arguments_witness :
  let args := buildFfmpegArgs atempoChain
                [Trim (Some 5) None; Grayscale; Speed 1.2; Mute] Mp4
                "input.mp4" "output.mp4" in
  [] ++ [Grayscale; Speed 1.2; Mute] = [Grayscale; Speed 1.2; Mute]
  /\ isOption "input.mp4" = false /\ isOption "output.mp4" = false
  /\ carries args "-vf" "hue=s=0,setpts=0.8333*PTS"
  /\ In "-an" args
  /\ ~ In "-t" args.
Proof.
  repeat (split; [reflexivity|]).
  exact (default_prompt_arguments atempoChain [] [Grayscale; Speed 1.2; Mute]
           "input.mp4" "output.mp4" eq_refl eq_refl eq_refl).
Defined.

Lemma mute_dominance_witness :
  let args := buildFfmpegArgs atempoChain [Speed 2; Mute] Mp4
                "input.mp4" "output.mp4" in
  In Mute [Speed 2; Mute]
  /\ isOption "input.mp4" = false /\ isOption "output.mp4" = false
  /\ In "-an" args /\ ~ In "-af" args /\ ~ In "-c:a" args.
Proof.
  split; [simpl; tauto|]. repeat (split; [reflexivity|]).
  apply (mute_dominance atempoChain [Speed 2; Mute] Mp4 "input.mp4" "output.mp4");
    [simpl; tauto | reflexivity | reflexivity].
Defined.


Lemma gif_output_handling_witness :
  let ops := [Grayscale; Speed 4; Crop Square] in
  let chain := compiledVideoFilters atempoChain ops Gif in
  let args := buildFfmpegArgs atempoChain ops Gif "input.mp4" "output.gif" in
  isOption "input.mp4" = false /\ isOption "output.gif" = false
  /\ chain = ["hue=s=0"; "setpts=0.2500*PTS"; "crop=min(iw,ih):min(iw,ih)"; "fps=12"]
  /\ carries args "-vf" (join chain)
  /\ carries args "-loop" "0"
  /\ ~ In "-c:v" args
  /\ ~ In "-c:a" args.
Proof.
  repeat (split; [reflexivity|]).
  destruct (gif_output_handling atempoChain [Grayscale; Speed 4; Crop Square]
              "input.mp4" "output.gif" atempoChain_plain eq_refl eq_refl)
    as [_ [_ H]].
  exact H.
Defined.

Lemma tempo_chain_product_invariant_witness :
  0 < 3 /\ 3 <= 10
  /\ clampTempo 3 = [2; 3 / 2]
  /\ Forall (fun x => (1 # 2) <= x /\ x <= 2) (clampTempo 3)
  /\ product (clampTempo 3) == 3.
Proof.
  split; [reflexivity|]. split; [discriminate|]. split; [reflexivity|].
  destruct (tempo_chain_product_invariant 3) as [Hall [Hprod _]];
    [reflexivity | discriminate | split; assumption].
Defined.


Lemma first_trim_wins_witness :
  let ops := [Trim (Some 5) (Some 10); Grayscale; Trim (Some 1) (Some 2)] in
  let ops' := [Trim (Some 5) (Some 10); Grayscale] in
  find is_trim ops = find is_trim ops'
  /\ filter (fun op => negb (is_trim op)) ops = filter (fun op => negb (is_trim op)) ops'
  /\ buildFfmpegArgs atempoChain ops Mp4 "input.mp4" "output.mp4"
     = buildFfmpegArgs atempoChain ops' Mp4 "input.mp4" "output.mp4".
Proof.
  repeat (split; [reflexivity|]).
  exact (first_trim_wins atempoChain
           [Trim (Some 5) (Some 10); Grayscale; Trim (Some 1) (Some 2)]
           [Trim (Some 5) (Some 10); Grayscale] Mp4 "input.mp4" "output.mp4"
           eq_refl eq_refl).
Defined.

Lemma empty_plan_compilation_witness :
  let args := buildFfmpegArgs atempoChain [] Mp4 "input.mp4" "output.mp4" in
  In "-an" ["-ss"; "-t"; "-vf"; "-af"; "-an"]
  /\ last args "" = "output.mp4"
  /\ ~ In "-an" args.
Proof.
  destruct (empty_plan_compilation atempoChain "input.mp4" "output.mp4")
    as [_ [Hlast Hnone]].
  split; [simpl; tauto|]. split; [exact Hlast|].
  intro H. destruct (Hnone "-an" (or_intror (or_intror (or_intror (or_intror
                       (or_introl eq_refl))))) H); discriminate.
Defined.

(** ** Properties of the file names *)

Example getExtension_examples :
  map getExtension ["holiday.MOV"; "archive.tar.gz"; "clip"; "clip."; ".hidden"; ""]
  = [".MOV"; ".gz"; ".mp4"; "."; ".hidden"; ".mp4"].
Proof. reflexivity. Qed.

(** The characters of a text. *)
Local Abbreviation chars := list_ascii_of_string.

Lemma lastIndexOf_bounds (s : string) (c : ascii) :
  (-1 <= lastIndexOf s c < Z.of_nat (String.length s))%Z.
Proof.
  induction s as [|a rest IH]; cbn [lastIndexOf String.length]; [lia|].
  destruct (0 <=? lastIndexOf rest c)%Z eqn:E; [apply Z.leb_le in E; lia|].
  destruct (Ascii.eqb a c); lia.
Qed.

Lemma lastIndexOf_absent (s : string) (c : ascii) :
  lastIndexOf s c = (-1)%Z <-> ~ In c (chars s).
Proof.
  induction s as [|a rest IH]; cbn [lastIndexOf chars In]; [tauto|].
  pose proof (lastIndexOf_bounds rest c) as Hb.
  destruct (0 <=? lastIndexOf rest c)%Z eqn:E.
  - apply Z.leb_le in E. split; [lia|]. intro H. exfalso. apply H. right.
    destruct (in_dec ascii_dec c (chars rest)) as [Hin|Hout]; [exact Hin|].
    apply IH in Hout. lia.
  - apply Z.leb_gt in E. assert (Hrest : lastIndexOf rest c = (-1)%Z) by lia.
    apply IH in Hrest. destruct (Ascii.eqb_spec a c) as [->|Hne].
    + split; [discriminate | intro H; exfalso; apply H; now left].
    + split; [intros _ [H|H]; [congruence | contradiction] | reflexivity].
Qed.

(** A text with [c] in it is cut by [lastIndexOf] into what is before the last
    [c] and what is after it. *)
Lemma lastIndexOf_split (s : string) (c : ascii) :
  (0 <= lastIndexOf s c)%Z ->
  exists before after,
    s = (before ++ String c after)%string
    /\ lastIndexOf s c = Z.of_nat (String.length before)
    /\ ~ In c (chars after).
Proof.
  induction s as [|a rest IH]; cbn [lastIndexOf]; [lia|].
  destruct (0 <=? lastIndexOf rest c)%Z eqn:E.
  - apply Z.leb_le in E. intros _. destruct (IH E) as [before [after [-> [Hi Hafter]]]].
    exists (String a before), after. cbn [append String.length].
    repeat split; [lia | exact Hafter].
  - apply Z.leb_gt in E. destruct (Ascii.eqb_spec a c) as [->|Hne]; [|lia].
    intros _. exists EmptyString, rest. repeat split.
    apply lastIndexOf_absent. pose proof (lastIndexOf_bounds rest c). lia.
Qed.

Lemma substring_all (s : string) : substring 0 (String.length s) s = s.
Proof. induction s as [|a s IH]; [reflexivity | cbn; now rewrite IH]. Qed.

Lemma substring_skip (before rest : string) (n : nat) :
  substring (String.length before) n (before ++ rest) = substring 0 n rest.
Proof. induction before as [|a before IH]; [reflexivity | exact IH]. Qed.

Lemma slice_after (before rest : string) :
  slice (before ++ rest) (Z.of_nat (String.length before)) = rest.
Proof.
  unfold slice.
  assert (Hlen : String.length (before ++ rest)
                 = (String.length before + String.length rest)%nat)
    by (induction before; cbn; congruence).
  rewrite Hlen.
  destruct (Z.ltb_spec (Z.of_nat (String.length before)) 0); [lia|].
  rewrite Z.min_l by lia. rewrite Nat2Z.id.
  replace (String.length before + String.length rest - String.length before)%nat
    with (String.length rest) by lia.
  rewrite substring_skip. apply substring_all.
Qed.

(** The two cases of [getExtension]. *)
Lemma getExtension_cases (name : string) :
  (~ In "."%char (chars name) /\ getExtension name = ".mp4")
  \/ (exists stem after,
        name = (stem ++ String "." after)%string
        /\ ~ In "."%char (chars after)
        /\ getExtension name = String "." after).
Proof.
  unfold getExtension. pose proof (lastIndexOf_bounds name ".") as Hb.
  destruct (Z.eqb_spec (lastIndexOf name ".") (-1)) as [E|E].
  - left. split; [now apply lastIndexOf_absent | reflexivity].
  - right. destruct (lastIndexOf_split name ".") as [stem [after [Hname [Hi Hafter]]]];
      [lia|].
    exists stem, after. repeat split; try assumption.
    rewrite Hi. rewrite Hname at 1. apply slice_after.
Qed.

Lemma getExtension_form (name : string) :
  exists after, getExtension name = String "." after /\ ~ In "."%char (chars after).
Proof.
  destruct (getExtension_cases name) as [[_ ->]|[stem [after [_ [Hafter ->]]]]].
  - exists "mp4". split; [reflexivity|].
    cbn. intuition discriminate.
  - now exists after.
Qed.

(** X1.  An extension is a dot followed by a text without a dot, whatever
    the name of the file. *)
Theorem getExtension_shape (name : string) :
  exists after, getExtension name = String "." after /\ ~ In "."%char (chars after).
Proof. exact (getExtension_form name). Qed.

(** X2.  A name with a dot ends with its extension, and what is before the
    extension is the name up to its last dot. *)
Theorem getExtension_suffix (name : string) :
  In "."%char (chars name) ->
  exists stem, name = (stem ++ getExtension name)%string
               /\ Z.of_nat (String.length stem) = lastIndexOf name ".".
Proof.
  intro Hdot.
  assert (Hi : (0 <= lastIndexOf name ".")%Z).
  { pose proof (lastIndexOf_bounds name ".").
    destruct (Z.eq_dec (lastIndexOf name ".") (-1)) as [E|E]; [|lia].
    apply lastIndexOf_absent in E. contradiction. }
  destruct (lastIndexOf_split name "." Hi) as [stem [after [Hname [Hlen _]]]].
  exists stem. split; [|now rewrite Hlen].
  unfold getExtension. destruct (Z.eqb_spec (lastIndexOf name ".") (-1)); [lia|].
  rewrite Hlen. rewrite Hname at 2. now rewrite slice_after.
Qed.

(** X3.  A name without a dot, the empty name included, gets [.mp4], which
    is then not a suffix of the name. *)
Theorem getExtension_default (name : string) :
  ~ In "."%char (chars name) ->
  getExtension name = ".mp4"
  /\ forall stem, name <> (stem ++ getExtension name)%string.
Proof.
  intro Hnone.
  destruct (getExtension_cases name) as [[_ E]|[stem [after [Hname _]]]].
  - split; [exact E|]. rewrite E. intros stem Hname. apply Hnone.
    rewrite Hname. clear. induction stem as [|a stem IH]; cbn; [now left | now right].
  - exfalso. apply Hnone. rewrite Hname. clear.
    induction stem as [|a stem IH]; cbn; [now left | now right].
Qed.

(** X4.  Taking the extension of an extension changes nothing. *)
Theorem getExtension_idempotent (name : string) :
  getExtension (getExtension name) = getExtension name.
Proof.
  destruct (getExtension_form name) as [after [-> Hafter]].
  unfold getExtension. cbn [lastIndexOf].
  apply lastIndexOf_absent in Hafter. rewrite Hafter. cbn.
  now rewrite substring_all.
Qed.

(** ** More properties of the compiler *)

Section CompilerOptions.

Variable clampAudioTempoChain : Q -> list string.

Local Abbreviation lowerAll := (lowerAll clampAudioTempoChain).
Local Abbreviation ownVideoFilters := (ownVideoFilters clampAudioTempoChain).
Local Abbreviation ownAudioFilters := (ownAudioFilters clampAudioTempoChain).
Local Abbreviation compiledVideoFilters := (compiledVideoFilters clampAudioTempoChain).
Local Abbreviation buildFfmpegArgs := (buildFfmpegArgs clampAudioTempoChain).
Local Abbreviation plainTempo := (plainTempo clampAudioTempoChain).

Lemma options_of_pair (test : bool) (opt value : string) :
  isOption opt = true -> (test = true -> isOption value = false) ->
  filter isOption (if test then [opt; value] else []) = if test then [opt] else [].
Proof.
  intros Hopt Hvalue. destruct test; [|reflexivity].
  cbn [filter]. now rewrite Hopt, Hvalue.
Qed.

(** The options of the argument list, in their order. *)
Lemma options_skeleton (ops : list Operation) (format : Format)
        (input output : string) :
  plainTempo -> isOption input = false -> isOption output = false ->
  let trimOperation := find is_trim ops in
  let start := or_zero (trim_start trimOperation) in
  let duration := Num.max 0 (or_zero (trim_end trimOperation) - start) in
  let st := lowerAll ops in
  filter isOption (buildFfmpegArgs ops format input output)
  = (if is_positive_number (trim_start trimOperation) then ["-ss"] else [])
    ++ ["-i"]
    ++ (if is_positive_number (trim_end trimOperation) && Num.gtb duration 0
        then ["-t"] else [])
    ++ (if (0 <? List.length (compiledVideoFilters ops format))%nat
        then ["-vf"] else [])
    ++ (if disableAudio st then ["-an"]
        else if (0 <? List.length (audioFilters st))%nat then ["-af"] else [])
    ++ match format with
       | Mp4 => ["-c:v"; "-preset"; "-pix_fmt"]
                  ++ (if disableAudio st then [] else ["-c:a"])
                  ++ ["-movflags"]
       | Gif => ["-loop"]
       end.
Proof.
  intros Hplain Hin Hout trimOperation start duration st.
  rewrite buildFfmpegArgs_parts. fold trimOperation start duration st.
  rewrite !filter_app.
  rewrite (options_of_pair _ "-ss"), (options_of_pair _ "-t"),
    (options_of_pair _ "-vf"); try reflexivity.
  - f_equal. f_equal; [cbn [filter isOption]; now rewrite Hin|].
    f_equal. f_equal. f_equal.
    + destruct (disableAudio st); [reflexivity|].
      apply options_of_pair; [reflexivity|].
      intros _. apply audioFilters_not_option, Hplain.
    + assert (Hlast : filter isOption [output] = [])
        by (cbn [filter]; now rewrite Hout).
      rewrite Hlast, app_nil_r.
      destruct format, (disableAudio st); reflexivity.
  - intros _. apply videoFilters_not_option.
  - intro H. apply andb_true_iff in H.
    apply toFixed_not_option, positive_not_negative, H.
  - intro H. apply toFixed_not_option, positive_not_negative.
    unfold start. destruct (trim_start trimOperation); [exact H | discriminate].
Qed.

Lemma options_once (ops : list Operation) (format : Format)
      (input output : string) :
  plainTempo -> isOption input = false -> isOption output = false ->
  NoDup (filter isOption (buildFfmpegArgs ops format input output)).
Proof.
  intros Hplain Hin Hout.
  rewrite (options_skeleton ops format input output Hplain Hin Hout).
  repeat match goal with
         | |- context [if ?test then _ else _] => destruct test
         end;
    cbn [app];
    repeat (constructor; [cbn [In]; intuition discriminate|]); constructor.
Qed.

(** X5.  The options of the argument list, in their order: the seek (a trim
    with a positive start), the input, the duration (a trim with a positive
    end after the start), the video filter (a chain that is not empty), the
    audio (off when muted, filtered when some tempo chain is there), then the
    encoding of the format.  The file names do not begin with a dash. *)
Theorem options_in_order (ops : list Operation) (format : Format)
        (input output : string) :
  plainTempo -> isOption input = false -> isOption output = false ->
  let trimOperation := find is_trim ops in
  let start := or_zero (trim_start trimOperation) in
  let duration := Num.max 0 (or_zero (trim_end trimOperation) - start) in
  let st := lowerAll ops in
  filter isOption (buildFfmpegArgs ops format input output)
  = (if is_positive_number (trim_start trimOperation) then ["-ss"] else [])
    ++ ["-i"]
    ++ (if is_positive_number (trim_end trimOperation) && Num.gtb duration 0
        then ["-t"] else [])
    ++ (if (0 <? List.length (compiledVideoFilters ops format))%nat
        then ["-vf"] else [])
    ++ (if disableAudio st then ["-an"]
        else if (0 <? List.length (audioFilters st))%nat then ["-af"] else [])
    ++ match format with
       | Mp4 => ["-c:v"; "-preset"; "-pix_fmt"]
                  ++ (if disableAudio st then [] else ["-c:a"])
                  ++ ["-movflags"]
       | Gif => ["-loop"]
       end.
Proof. exact (options_skeleton ops format input output). Qed.

(** X6.  No option is written twice, and [-an] and [-af] are never both
    there. *)
Theorem no_option_twice (ops : list Operation) (format : Format)
        (input output : string) :
  plainTempo -> isOption input = false -> isOption output = false ->
  let args := buildFfmpegArgs ops format input output in
  NoDup (filter isOption args) /\ ~ (In "-an" args /\ In "-af" args).
Proof.
  intros Hplain Hin Hout args.
  pose proof (options_skeleton ops format input output Hplain Hin Hout) as Hopts.
  cbv zeta in Hopts. fold args in Hopts.
  assert (Hmem : forall s, isOption s = true -> In s args ->
                           In s (filter isOption args))
    by (intros s Hs Hargs; apply filter_In; now split).
  split.
  - apply options_once; assumption.
  - intros [Han Haf].
    apply (Hmem "-an" eq_refl) in Han. apply (Hmem "-af" eq_refl) in Haf.
    rewrite Hopts in Han, Haf.
    repeat match type of Han with
           | context [if ?test then _ else _] => destruct test
           end;
      cbn [app In] in Han, Haf;
      intuition discriminate.
Qed.

End CompilerOptions.

Section CompilerEdges.

Variable clampAudioTempoChain : Q -> list string.

Local Abbreviation lowerAll := (lowerAll clampAudioTempoChain).
Local Abbreviation ownVideoFilters := (ownVideoFilters clampAudioTempoChain).
Local Abbreviation ownAudioFilters := (ownAudioFilters clampAudioTempoChain).
Local Abbreviation compiledVideoFilters := (compiledVideoFilters clampAudioTempoChain).
Local Abbreviation buildFfmpegArgs := (buildFfmpegArgs clampAudioTempoChain).
Local Abbreviation plainTempo := (plainTempo clampAudioTempoChain).

Lemma option_in_filter (args : list string) (s : string) :
  isOption s = true -> In s args -> In s (filter isOption args).
Proof. intros Hs Hin. apply filter_In. now split. Qed.

Lemma find_none_all (test : Operation -> bool) (ops : list Operation) :
  (forall op, In op ops -> test op = false) -> find test ops = None.
Proof.
  induction ops as [|op ops IH]; intro H; [reflexivity|].
  cbn [find]. rewrite (H op) by now left. apply IH. intros o Ho. apply H. now right.
Qed.

(** X7.  Without a trim in the list the arguments begin with [-i] and the
    input name, and have neither [-ss] nor [-t]. *)
Theorem no_trim_no_seek (ops : list Operation) (format : Format)
        (input output : string) :
  (forall op, In op ops -> is_trim op = false) ->
  plainTempo -> isOption input = false -> isOption output = false ->
  let args := buildFfmpegArgs ops format input output in
  nth_error args 0 = Some "-i" /\ nth_error args 1 = Some input
  /\ ~ In "-ss" args /\ ~ In "-t" args.
Proof.
  intros Hnone Hplain Hin Hout args. apply find_none_all in Hnone.
  pose proof (options_skeleton clampAudioTempoChain ops format input output
                Hplain Hin Hout) as Hopts.
  cbv zeta in Hopts. fold args in Hopts. rewrite Hnone in Hopts.
  cbn [trim_start trim_end is_positive_number andb app] in Hopts.
  split; [|split; [|split]].
  - unfold args. rewrite buildFfmpegArgs_parts. cbv zeta. now rewrite Hnone.
  - unfold args. rewrite buildFfmpegArgs_parts. cbv zeta. now rewrite Hnone.
  - intro H. apply (option_in_filter _ "-ss" eq_refl) in H. rewrite Hopts in H.
    repeat match type of H with
           | context [if ?test then _ else _] => destruct test
           end; cbn [app In] in H; intuition discriminate.
  - intro H. apply (option_in_filter _ "-t" eq_refl) in H. rewrite Hopts in H.
    repeat match type of H with
           | context [if ?test then _ else _] => destruct test
           end; cbn [app In] in H; intuition discriminate.
Qed.

(** X8.  A first trim whose start is missing or not positive gives no seek:
    the arguments begin with the input.  With a positive end they go on with
    [-t] and the end minus the start, the start counting as 0 when missing
    and as it is when negative, so that the duration is then at least the
    end.  The text after [-t] is stated for the trims whose subtraction is
    exact in binary64 and whose duration is below 1e21. *)
Theorem trim_without_seek (ops : list Operation) (format : Format)
        (input output : string) (start : option Q) (e : Q) :
  find is_trim ops = Some (Trim start (Some e)) ->
  or_zero start <= 0 -> 0 < e ->
  let args := buildFfmpegArgs ops format input output in
  nth_error args 0 = Some "-i"
  /\ nth_error args 1 = Some input
  /\ nth_error args 2 = Some "-t"
  /\ (binary64 (or_zero start) -> binary64 e -> binary64 (e - or_zero start) ->
      e - or_zero start < inject_Z (10 ^ 21) ->
      nth_error args 3 = Some (Num.toFixed (e - or_zero start) 2))
  /\ e <= e - or_zero start.
Proof.
  intros Hfind Hstart He args. unfold args.
  rewrite buildFfmpegArgs_parts. cbv zeta. rewrite Hfind.
  cbn [trim_start trim_end or_zero is_positive_number].
  assert (Hno : is_positive_number start = false).
  { destruct start as [q|]; [|reflexivity]. now apply gtb_false. }
  assert (Hd : 0 < e - or_zero start) by lra.
  assert (Hmax : Num.max 0 (e - or_zero start) = e - or_zero start).
  { unfold Num.max. rewrite (proj2 (Qle_bool_iff 0 _)); [reflexivity | lra]. }
  rewrite Hno, Hmax, (proj2 (gtb_true e 0) He), (proj2 (gtb_true _ 0) Hd).
  do 3 (split; [reflexivity|]). split; [intros _ _ _ _; reflexivity | lra].
Qed.

(** X9.  The mp4 format always carries the four encoding options with their
    values, and the audio codec as well unless the operations have a mute. *)
Theorem mp4_encoding (ops : list Operation) (input output : string) :
  let args := buildFfmpegArgs ops Mp4 input output in
  carries args "-c:v" "libx264"
  /\ carries args "-preset" "veryfast"
  /\ carries args "-pix_fmt" "yuv420p"
  /\ carries args "-movflags" "faststart"
  /\ (~ In Mute ops -> carries args "-c:a" "aac").
Proof.
  intro args. unfold args. rewrite buildFfmpegArgs_parts. cbv zeta.
  repeat split.
  - do 5 apply carries_app_r. apply carries_app_l, carries_app_l, carries_here.
  - do 5 apply carries_app_r. apply carries_app_l, carries_app_l.
    apply (carries_app_r ["-c:v"; "libx264"]), carries_here.
  - do 5 apply carries_app_r. apply carries_app_l, carries_app_l.
    apply (carries_app_r ["-c:v"; "libx264"; "-preset"; "veryfast"]), carries_here.
  - do 5 apply carries_app_r. apply carries_app_l.
    do 2 apply carries_app_r. apply carries_here.
  - intro Hmute. destruct (disableAudio (lowerAll ops)) eqn:E.
    + apply muted_iff in E. contradiction.
    + do 5 apply carries_app_r. apply carries_app_l, carries_app_r, carries_here.
Qed.

Lemma ownVideoFilters_length (op : Operation) :
  List.length (ownVideoFilters op) = if is_filter op then 1%nat else 0%nat.
Proof. rewrite ownVideoFilters_eq. destruct op as [? ?| |?| |?|[]]; reflexivity. Qed.

Lemma flat_map_length_filter (ops : list Operation) :
  List.length (flat_map ownVideoFilters ops) = List.length (filter is_filter ops).
Proof.
  induction ops as [|op ops IH]; [reflexivity|].
  cbn [flat_map filter]. rewrite length_app, ownVideoFilters_length, IH.
  destruct (is_filter op); reflexivity.
Qed.

(** X10.  The video chain has one filter for each operation that is neither
    a trim nor a mute, repeated operations included, and one more for the gif
    format.  When it is not empty the arguments carry it under [-vf]; when it
    is empty there is no [-vf]. *)
Theorem video_chain_length (ops : list Operation) (format : Format)
        (input output : string) :
  plainTempo -> isOption input = false -> isOption output = false ->
  let chain := compiledVideoFilters ops format in
  let args := buildFfmpegArgs ops format input output in
  List.length chain
  = (List.length (filter is_filter ops)
     + match format with Gif => 1 | Mp4 => 0 end)%nat
  /\ (chain <> [] -> carries args "-vf" (join chain))
  /\ (chain = [] -> ~ In "-vf" args).
Proof.
  intros Hplain Hin Hout chain args. split; [|split].
  - unfold chain, compiledVideoFilters. rewrite lowerAll_video.
    destruct format; rewrite ?length_app, flat_map_length_filter; cbn; lia.
  - intro Hchain. unfold args. rewrite buildFfmpegArgs_parts. cbv zeta. fold chain.
    destruct chain as [|filter chain']; [contradiction|]. cbn [List.length Nat.ltb Nat.leb].
    do 3 apply carries_app_r. apply carries_app_l, carries_here.
  - intros Hchain H. apply (option_in_filter _ "-vf" eq_refl) in H.
    pose proof (options_skeleton clampAudioTempoChain ops format input output
                  Hplain Hin Hout) as Hopts.
    cbv zeta in Hopts. fold args chain in Hopts. rewrite Hopts, Hchain in H.
    cbn [List.length Nat.ltb Nat.leb] in H.
    repeat match type of H with
           | context [if ?test then _ else _] => destruct test
           end; cbn [app In] in H; intuition discriminate.
Qed.

End CompilerEdges.

Section CompilerAudio.

Variable clampAudioTempoChain : Q -> list string.

Local Abbreviation lowerAll := (lowerAll clampAudioTempoChain).
Local Abbreviation ownAudioFilters := (ownAudioFilters clampAudioTempoChain).
Local Abbreviation buildFfmpegArgs := (buildFfmpegArgs clampAudioTempoChain).
Local Abbreviation plainTempo := (plainTempo clampAudioTempoChain).

(** The tempo chain of a speed operation, joined, when it is not empty. *)
Let tempoOf (op : Operation) : list string :=
  match op with
  | Speed factor =>
      if (0 <? List.length (clampAudioTempoChain factor))%nat
      then [join (clampAudioTempoChain factor)] else []
  | _ => []
  end.

Lemma ownAudioFilters_eq (op : Operation) : ownAudioFilters op = tempoOf op.
Proof.
  unfold ownAudioFilters, tempoOf.
  destruct op as [s e| |factor| |value|[]]; simpl;
    try (destruct (_ <? _)%nat; simpl); reflexivity.
Qed.

(** X11.  Without a mute, the audio filter is made of the tempo chains of the
    speed operations, in the order of the list, each joined and all of them
    joined again: the arguments carry it under [-af] when some chain is
    there, have no [-af] when none is, and never have [-an]. *)
Theorem audio_filter_chain (ops : list Operation) (format : Format)
        (input output : string) :
  plainTempo -> isOption input = false -> isOption output = false ->
  ~ In Mute ops ->
  let audio := flat_map tempoOf ops in
  let args := buildFfmpegArgs ops format input output in
  (audio <> [] -> carries args "-af" (join audio))
  /\ (audio = [] -> ~ In "-af" args)
  /\ ~ In "-an" args.
Proof.
  intros Hplain Hin Hout Hmute audio args.
  assert (Haudio : audioFilters (lowerAll ops) = audio).
  { rewrite lowerAll_audio. apply flat_map_ext, ownAudioFilters_eq. }
  assert (Hon : disableAudio (lowerAll ops) = false).
  { destruct (disableAudio (lowerAll ops)) eqn:E; [|reflexivity].
    apply muted_iff in E. contradiction. }
  pose proof (options_skeleton clampAudioTempoChain ops format input output
                Hplain Hin Hout) as Hopts.
  cbv zeta in Hopts. fold args in Hopts. rewrite Hon, Haudio in Hopts.
  split; [|split].
  - intro Hsome. unfold args. rewrite buildFfmpegArgs_parts. cbv zeta.
    rewrite Hon, Haudio.
    destruct audio as [|chain audio']; [contradiction|].
    cbn [List.length Nat.ltb Nat.leb].
    do 4 apply carries_app_r. apply carries_app_l, carries_here.
  - intros Hnone H. apply (option_in_filter _ "-af" eq_refl) in H.
    rewrite Hopts, Hnone in H. cbn [List.length Nat.ltb Nat.leb] in H.
    repeat match type of H with
           | context [if ?test then _ else _] => destruct test
           end; cbn [app In] in H; intuition discriminate.
  - intro H. apply (option_in_filter _ "-an" eq_refl) in H. rewrite Hopts in H.
    repeat match type of H with
           | context [if ?test then _ else _] => destruct test
           end; cbn [app In] in H; intuition discriminate.
Qed.

(** *** The call in [processVideo] *)

Lemma inputName_not_option (fileName : string) : isOption (inputName fileName) = false.
Proof. reflexivity. Qed.

Lemma outputName_not_option (plan : AgentPlan) : isOption (outputName plan) = false.
Proof. reflexivity. Qed.

(** X12.  The arguments of a run of the component, for every plan and every
    name of the uploaded file: [-i] carries [input] with an extension of one
    dot, the output name of the format is last and differs from the input
    name, no option is written twice, and a plan with a mute gives [-an]
    and neither [-af] nor [-c:a]. *)
Theorem processVideo_arguments (plan : AgentPlan) (fileName : string) :
  plainTempo ->
  let args := processVideoArgs clampAudioTempoChain plan fileName in
  (exists after, carries args "-i" ("input." ++ after)%string
                 /\ ~ In "."%char (chars after))
  /\ (exists front,
        args = front ++ [("output." ++ formatText (outputExtension plan))%string])
  /\ inputName fileName <> outputName plan
  /\ NoDup (filter isOption args)
  /\ (In Mute (operations plan) ->
      In "-an" args /\ ~ In "-af" args /\ ~ In "-c:a" args).
Proof.
  intros Hplain args.
  pose proof (options_skeleton clampAudioTempoChain (operations plan)
                (outputExtension plan) (inputName fileName) (outputName plan)
                Hplain eq_refl eq_refl) as Hopts.
  cbv zeta in Hopts. fold (processVideoArgs clampAudioTempoChain plan fileName) in Hopts.
  fold args in Hopts.
  split; [|split; [|split; [|split]]].
  - destruct (getExtension_form fileName) as [after [Hext Hafter]].
    exists after. split; [|exact Hafter].
    unfold args, processVideoArgs. rewrite buildFfmpegArgs_parts. cbv zeta.
    apply carries_app_r. unfold inputName. rewrite Hext. apply carries_here.
  - unfold args, processVideoArgs. rewrite buildFfmpegArgs_parts. cbv zeta.
    rewrite !app_assoc. eexists. reflexivity.
  - discriminate.
  - apply options_once; [exact Hplain | reflexivity | reflexivity].
  - intro Hmute. apply muted_iff with (clampAudioTempoChain := clampAudioTempoChain) in Hmute.
    rewrite Hmute in Hopts. split; [|split].
    + apply (proj1 (filter_In isOption "-an" args)). rewrite Hopts.
      repeat match goal with
             | |- context [if ?test then _ else _] => destruct test
             end; cbn [app In]; tauto.
    + intro H. apply (option_in_filter _ "-af" eq_refl) in H. rewrite Hopts in H.
      repeat match type of H with
             | context [if ?test then _ else _] => destruct test
             end; cbn [app In] in H; intuition discriminate.
    + intro H. apply (option_in_filter _ "-c:a" eq_refl) in H. rewrite Hopts in H.
      repeat match type of H with
             | context [if ?test then _ else _] => destruct test
             end; cbn [app In] in H; intuition discriminate.
Qed.

End CompilerAudio.

(** ** Properties of the progress bar *)

(** X13.  While ffmpeg runs, the bar is between 10 and 99 percent wide
    whatever progress is reported; the progress shown does not go down when
    the progress reported goes up, is not negative for a progress that is
    not, and is 99 from 98.5 percent on. *)
Theorem progress_bar_bounds (p q : Q) :
  (10 <= barWidth (onProgress p) <= 99)%Z
  /\ (p <= q -> (onProgress p <= onProgress q)%Z)
  /\ (0 <= p -> (0 <= onProgress p)%Z)
  /\ ((197 # 200) <= p -> onProgress p = 99%Z).
Proof.
  unfold barWidth, onProgress, Math_round. split; [lia|]. split; [|split].
  - intro H. apply Z.min_le_compat_l, Qfloor_resp_le. lra.
  - intro H. apply Z.min_glb; [lia|].
    change 0%Z with (Qfloor 0). apply Qfloor_resp_le. lra.
  - intro H. apply Z.min_l.
    rewrite <- (Qfloor_Z 99). apply Qfloor_resp_le.
    change (inject_Z 99) with 99. lra.
Qed.

(** ** Properties of the handlers *)

Section HandlerFacts.

Variable trim : string -> string.
Variable planOf : string -> AgentPlan.
Variable createObjectURL : VideoAgent.File -> string.

Local Abbreviation handlePlan := (VideoAgent.handlePlan trim planOf).
Local Abbreviation handleFileChange := (VideoAgent.handleFileChange createObjectURL).
Local Abbreviation processVideo := (VideoAgent.processVideo trim planOf).

Lemma setPrompt_keeps (edits : list string) (st : VideoAgent.State) :
  VideoAgent.agentPlan (fold_left VideoAgent.setPrompt edits st) = VideoAgent.agentPlan st
  /\ VideoAgent.sourceFile (fold_left VideoAgent.setPrompt edits st)
     = VideoAgent.sourceFile st.
Proof.
  revert st. induction edits as [|value edits IH]; intro st; [now split|].
  cbn [fold_left]. destruct (IH (VideoAgent.setPrompt st value)) as [-> ->].
  now split.
Qed.

(** X14.  Once a plan has been generated from a prompt that is not blank, a
    run compiles that plan however the prompt has been edited since, and
    leaves it as the plan of the component. *)
Theorem run_uses_stored_plan (st : VideoAgent.State) (edits : list string)
        (file : VideoAgent.File) :
  trim (VideoAgent.prompt st) <> "" ->
  VideoAgent.sourceFile st = Some file ->
  let later := fold_left VideoAgent.setPrompt edits (handlePlan st) in
  snd (processVideo later) = Some (planOf (VideoAgent.prompt st))
  /\ VideoAgent.agentPlan (fst (processVideo later))
     = Some (planOf (VideoAgent.prompt st))
  /\ VideoAgent.error (fst (processVideo later)) = None.
Proof.
  intros Hprompt Hfile later.
  destruct (setPrompt_keeps edits (handlePlan st)) as [Hplan Hsource].
  fold later in Hplan, Hsource.
  assert (Hplanned : VideoAgent.agentPlan (handlePlan st)
                     = Some (planOf (VideoAgent.prompt st))
                     /\ VideoAgent.sourceFile (handlePlan st) = Some file).
  { unfold VideoAgent.handlePlan.
    rewrite (proj2 (String.eqb_neq _ _) Hprompt). now split. }
  destruct Hplanned as [Hp Hs]. rewrite Hp in Hplan. rewrite Hs in Hsource.
  unfold VideoAgent.processVideo. rewrite Hsource, Hplan. now repeat split.
Qed.

(** X15.  Choosing a file of a supported type discards the plan and the
    output there were, so that the next run parses the prompt as it is
    then. *)
Theorem new_file_resets_plan (st : VideoAgent.State) (file : VideoAgent.File) :
  In (VideoAgent.type file) SUPPORTED_INPUT_TYPES ->
  let chosen := handleFileChange st (Some file) in
  VideoAgent.sourceFile chosen = Some file
  /\ VideoAgent.agentPlan chosen = None
  /\ VideoAgent.outputUrl chosen = None
  /\ VideoAgent.error chosen = None
  /\ snd (processVideo chosen) = Some (planOf (VideoAgent.prompt st)).
Proof.
  intros Htype chosen.
  assert (Hok : existsb (String.eqb (VideoAgent.type file)) SUPPORTED_INPUT_TYPES = true).
  { apply existsb_exists. exists (VideoAgent.type file).
    split; [exact Htype | apply String.eqb_refl]. }
  unfold chosen, VideoAgent.handleFileChange. rewrite Hok.
  now repeat split.
Qed.

(** X16.  A file of another type, or no file, changes nothing but the error:
    the source, the plan and the output stay, and a run after it compiles
    what a run before it would have compiled. *)
Theorem rejected_file_keeps_source (st : VideoAgent.State)
        (file : option VideoAgent.File) :
  (forall f, file = Some f -> ~ In (VideoAgent.type f) SUPPORTED_INPUT_TYPES) ->
  let after := handleFileChange st file in
  VideoAgent.sourceFile after = VideoAgent.sourceFile st
  /\ VideoAgent.sourceUrl after = VideoAgent.sourceUrl st
  /\ VideoAgent.agentPlan after = VideoAgent.agentPlan st
  /\ VideoAgent.outputUrl after = VideoAgent.outputUrl st
  /\ (VideoAgent.error after = None <-> file = None)
  /\ snd (processVideo after) = snd (processVideo st).
Proof.
  intros Hrejected after. unfold after, VideoAgent.handleFileChange.
  destruct file as [f|].
  - destruct (existsb _ SUPPORTED_INPUT_TYPES) eqn:E.
    + exfalso. apply existsb_exists in E. destruct E as [t [Hin Heq]].
      apply String.eqb_eq in Heq. subst t. exact (Hrejected f eq_refl Hin).
    + repeat split; try discriminate.
  - repeat split; reflexivity.
Qed.

(** X17.  A run with a blank prompt and no plan sets the error of the blank
    prompt and goes on all the same: it compiles the plan of the blank prompt
    and stores it. *)
Theorem blank_prompt_still_runs (st : VideoAgent.State) (file : VideoAgent.File) :
  trim (VideoAgent.prompt st) = "" ->
  VideoAgent.sourceFile st = Some file ->
  VideoAgent.agentPlan st = None ->
  snd (processVideo st) = Some (planOf (VideoAgent.prompt st))
  /\ VideoAgent.agentPlan (fst (processVideo st))
     = Some (planOf (VideoAgent.prompt st))
  /\ VideoAgent.error (fst (processVideo st))
     = Some "Describe the edit you want to make.".
Proof.
  intros Hblank Hfile Hplan.
  unfold VideoAgent.processVideo, VideoAgent.handlePlan.
  rewrite Hfile, Hplan. cbn [VideoAgent.prompt]. rewrite Hblank.
  now repeat split.
Qed.

End HandlerFacts.

(** ** The further theorems at concrete inputs *)

Lemma getExtension_suffix_witness :
  In "."%char (list_ascii_of_string "holiday.final.MOV")
  /\ getExtension "holiday.final.MOV" = ".MOV"
  /\ exists stem, "holiday.final.MOV" = (stem ++ ".MOV")%string
                  /\ Z.of_nat (String.length stem) = 13%Z.
Proof.
  assert (Hdot : In "."%char (list_ascii_of_string "holiday.final.MOV"))
    by (simpl; tauto).
  split; [exact Hdot|]. split; [reflexivity|].
  exact (getExtension_suffix "holiday.final.MOV" Hdot).
Defined.

Lemma getExtension_default_witness :
  ~ In "."%char (list_ascii_of_string "clip")
  /\ getExtension "clip" = ".mp4".
Proof.
  assert (Hnone : ~ In "."%char (list_ascii_of_string "clip"))
    by (simpl; intuition discriminate).
  split; [exact Hnone|].
  exact (proj1 (getExtension_default "clip" Hnone)).
Defined.

Lemma options_in_order_witness :
  isOption "input.mov" = false /\ isOption "output.mp4" = false
  /\ filter isOption
       (buildFfmpegArgs atempoChain
          [Trim (Some 2) (Some 8); Grayscale; Speed 4] Mp4 "input.mov" "output.mp4")
     = ["-ss"; "-i"; "-t"; "-vf"; "-af"; "-c:v"; "-preset"; "-pix_fmt"; "-c:a";
        "-movflags"].
Proof.
  repeat (split; [reflexivity|]).
  exact (options_in_order atempoChain [Trim (Some 2) (Some 8); Grayscale; Speed 4]
           Mp4 "input.mov" "output.mp4" atempoChain_plain eq_refl eq_refl).
Defined.

Lemma no_option_twice_witness :
  let args := buildFfmpegArgs atempoChain [Speed 4; Speed 4; Mute] Gif
                "input.mov" "output.gif" in
  isOption "input.mov" = false /\ isOption "output.gif" = false
  /\ NoDup (filter isOption args) /\ ~ (In "-an" args /\ In "-af" args).
Proof.
  repeat (split; [reflexivity|]).
  exact (no_option_twice atempoChain [Speed 4; Speed 4; Mute] Gif
           "input.mov" "output.gif" atempoChain_plain eq_refl eq_refl).
Defined.

Lemma no_trim_no_seek_witness :
  let ops := [Grayscale; Mute] in
  let args := buildFfmpegArgs atempoChain ops Mp4 "input.mov" "output.mp4" in
  (forall op, In op ops -> is_trim op = false)
  /\ isOption "input.mov" = false /\ isOption "output.mp4" = false
  /\ nth_error args 0 = Some "-i" /\ nth_error args 1 = Some "input.mov"
  /\ ~ In "-ss" args /\ ~ In "-t" args.
Proof.
  assert (Hnone : forall op, In op [Grayscale; Mute] -> is_trim op = false)
    by (intros op [<-|[<-|[]]]; reflexivity).
  split; [exact Hnone|]. split; [reflexivity|]. split; [reflexivity|].
  exact (no_trim_no_seek atempoChain [Grayscale; Mute] Mp4 "input.mov" "output.mp4"
           Hnone atempoChain_plain eq_refl eq_refl).
Defined.

Lemma trim_without_seek_witness :
  let ops := [Trim (Some (-3)) (Some 5)] in
  let args := buildFfmpegArgs atempoChain ops Mp4 "input.mov" "output.mp4" in
  find is_trim ops = Some (Trim (Some (-3)) (Some 5))
  /\ or_zero (Some (-3)) <= 0 /\ 0 < 5
  /\ binary64 (-3) /\ binary64 5 /\ binary64 (5 - -3)
  /\ 5 - -3 < inject_Z (10 ^ 21)
  /\ nth_error args 0 = Some "-i" /\ nth_error args 1 = Some "input.mov"
  /\ nth_error args 2 = Some "-t" /\ nth_error args 3 = Some "8.00".
Proof.
  assert (Hs : binary64 (-3))
    by (exists (-3)%Z, 0%Z; split; [reflexivity | split; [lia | reflexivity]]).
  assert (He : binary64 5)
    by (exists 5%Z, 0%Z; split; [reflexivity | split; [lia | reflexivity]]).
  assert (Hd : binary64 (5 - -3))
    by (exists 1%Z, 3%Z; split; [reflexivity | split; [lia | reflexivity]]).
  split; [reflexivity|]. split; [discriminate|]. split; [reflexivity|].
  split; [exact Hs|]. split; [exact He|]. split; [exact Hd|].
  split; [reflexivity|].
  destruct (trim_without_seek atempoChain [Trim (Some (-3)) (Some 5)] Mp4
              "input.mov" "output.mp4" (Some (-3)) 5 eq_refl)
    as [H0 [H1 [H2 [H3 _]]]]; [discriminate | reflexivity |].
  split; [exact H0|]. split; [exact H1|].
  split; [exact H2 | exact (H3 Hs He Hd eq_refl)].
Defined.

Lemma mp4_encoding_witness :
  let args := buildFfmpegArgs atempoChain [Grayscale] Mp4 "input.mov" "output.mp4" in
  ~ In Mute [Grayscale] /\ carries args "-c:v" "libx264" /\ carries args "-c:a" "aac".
Proof.
  assert (Hnone : ~ In Mute [Grayscale]) by (simpl; intuition discriminate).
  destruct (mp4_encoding atempoChain [Grayscale] "input.mov" "output.mp4")
    as [Hv [_ [_ [_ Ha]]]].
  split; [exact Hnone|]. split; [exact Hv | exact (Ha Hnone)].
Defined.

Lemma video_chain_length_witness :
  let ops := [Grayscale; Grayscale; Trim (Some 1) None; Brightness 0.2; Mute] in
  let chain := compiledVideoFilters atempoChain ops Gif in
  let args := buildFfmpegArgs atempoChain ops Gif "input.mov" "output.gif" in
  isOption "input.mov" = false /\ isOption "output.gif" = false
  /\ chain <> []
  /\ List.length chain = 4%nat
  /\ carries args "-vf" "hue=s=0,hue=s=0,eq=brightness=0.20,fps=12".
Proof.
  repeat (split; [reflexivity|]). split; [discriminate|].
  destruct (video_chain_length atempoChain
              [Grayscale; Grayscale; Trim (Some 1) None; Brightness 0.2; Mute] Gif
              "input.mov" "output.gif" atempoChain_plain eq_refl eq_refl)
    as [Hlen [Hsome _]].
  split; [exact Hlen|]. apply Hsome. discriminate.
Defined.

Lemma audio_filter_chain_witness :
  let ops := [Speed 4; Grayscale; Speed 0.5] in
  let args := buildFfmpegArgs atempoChain ops Mp4 "input.mov" "output.mp4" in
  isOption "input.mov" = false /\ isOption "output.mp4" = false
  /\ ~ In Mute ops
  /\ carries args "-af" "atempo=2.000,atempo=2.000,atempo=0.500"
  /\ ~ In "-an" args.
Proof.
  assert (Hnone : ~ In Mute [Speed 4; Grayscale; Speed 0.5])
    by (simpl; intuition discriminate).
  repeat (split; [reflexivity|]). split; [exact Hnone|].
  destruct (audio_filter_chain atempoChain [Speed 4; Grayscale; Speed 0.5] Mp4
              "input.mov" "output.mp4" atempoChain_plain eq_refl eq_refl Hnone)
    as [Hsome [_ Han]].
  split; [|exact Han]. apply Hsome. discriminate.
Defined.

Lemma processVideo_arguments_witness :
  let plan := mkPlan [Trim (Some 5) None; Grayscale; Speed 1.2; Mute] Mp4 in
  let args := processVideoArgs atempoChain plan "holiday.final.MOV" in
  In Mute (operations plan)
  /\ args = ["-ss"; "5.00"; "-i"; "input.MOV"; "-vf"; "hue=s=0,setpts=0.8333*PTS";
             "-an"; "-c:v"; "libx264"; "-preset"; "veryfast"; "-pix_fmt";
             "yuv420p"; "-movflags"; "faststart"; "output.mp4"]
  /\ NoDup (filter isOption args)
  /\ ~ In "-af" args.
Proof.
  assert (Hmute : In Mute [Trim (Some 5) None; Grayscale; Speed 1.2; Mute])
    by (simpl; tauto).
  split; [exact Hmute|]. split; [reflexivity|].
  destruct (processVideo_arguments atempoChain
              (mkPlan [Trim (Some 5) None; Grayscale; Speed 1.2; Mute] Mp4)
              "holiday.final.MOV" atempoChain_plain)
    as [_ [_ [_ [Honce Hmuted]]]].
  split; [exact Honce | exact (proj1 (proj2 (Hmuted Hmute)))].
Defined.

Lemma progress_bar_bounds_witness :
  (1 # 2) <= 3 # 4 /\ 0 <= 1 # 2 /\ (197 # 200) <= 2
  /\ onProgress (1 # 2) = 50%Z /\ onProgress (3 # 4) = 75%Z
  /\ (onProgress (1 # 2) <= onProgress (3 # 4))%Z
  /\ onProgress 2 = 99%Z.
Proof.
  destruct (progress_bar_bounds (1 # 2) (3 # 4)) as [_ [Hmono _]].
  destruct (progress_bar_bounds 2 2) as [_ [_ [_ Hfull]]].
  split; [discriminate|]. split; [discriminate|]. split; [discriminate|].
  split; [reflexivity|]. split; [reflexivity|].
  split; [apply Hmono; discriminate | apply Hfull; discriminate].
Defined.

(** A state with a file and a prompt, before any plan. *)
Lemma run_uses_stored_plan_witness :
  let file := VideoAgent.mkFile "holiday.MOV" "video/quicktime" in
  let st := VideoAgent.mkState "Play it at 2x and mute the audio" (Some file)
              (Some "blob:holiday.MOV") None None None in
  let later := fold_left VideoAgent.setPrompt ["Make it"; "Make it grayscale"]
                 (VideoAgent.handlePlan trimAscii examplePlanOf st) in
  trimAscii (VideoAgent.prompt st) <> ""
  /\ VideoAgent.prompt later = "Make it grayscale"
  /\ snd (VideoAgent.processVideo trimAscii examplePlanOf later)
     = Some (mkPlan [Speed 2; Mute] Mp4).
Proof.
  split; [discriminate|]. split; [reflexivity|].
  exact (proj1 (run_uses_stored_plan trimAscii examplePlanOf
                  (VideoAgent.mkState "Play it at 2x and mute the audio"
                     (Some (VideoAgent.mkFile "holiday.MOV" "video/quicktime"))
                     (Some "blob:holiday.MOV") None None None)
                  ["Make it"; "Make it grayscale"]
                  (VideoAgent.mkFile "holiday.MOV" "video/quicktime")
                  ltac:(discriminate) eq_refl)).
Defined.

Lemma new_file_resets_plan_witness :
  let file := VideoAgent.mkFile "beach.webm" "video/webm" in
  let st := VideoAgent.mkState "Make it grayscale"
              (Some (VideoAgent.mkFile "holiday.MOV" "video/quicktime"))
              (Some "blob:holiday.MOV") (Some (mkPlan [Mute] Mp4))
              (Some "blob:result") None in
  let chosen := VideoAgent.handleFileChange blobUrl st (Some file) in
  In (VideoAgent.type file) SUPPORTED_INPUT_TYPES
  /\ VideoAgent.agentPlan chosen = None
  /\ VideoAgent.outputUrl chosen = None
  /\ snd (VideoAgent.processVideo trimAscii examplePlanOf chosen)
     = Some (mkPlan [Grayscale] Mp4).
Proof.
  assert (Htype : In "video/webm" SUPPORTED_INPUT_TYPES) by (simpl; tauto).
  split; [exact Htype|].
  destruct (new_file_resets_plan trimAscii examplePlanOf blobUrl
              (VideoAgent.mkState "Make it grayscale"
                 (Some (VideoAgent.mkFile "holiday.MOV" "video/quicktime"))
                 (Some "blob:holiday.MOV") (Some (mkPlan [Mute] Mp4))
                 (Some "blob:result") None)
              (VideoAgent.mkFile "beach.webm" "video/webm") Htype)
    as [_ [Hplan [Hout [_ Hrun]]]].
  repeat split; assumption.
Defined.

Lemma rejected_file_keeps_source_witness :
  let file := VideoAgent.mkFile "notes.pdf" "application/pdf" in
  let st := VideoAgent.mkState "Make it grayscale"
              (Some (VideoAgent.mkFile "holiday.MOV" "video/quicktime"))
              (Some "blob:holiday.MOV") (Some (mkPlan [Mute] Mp4))
              (Some "blob:result") None in
  let after := VideoAgent.handleFileChange blobUrl st (Some file) in
  ~ In (VideoAgent.type file) SUPPORTED_INPUT_TYPES
  /\ VideoAgent.sourceFile after = VideoAgent.sourceFile st
  /\ VideoAgent.agentPlan after = Some (mkPlan [Mute] Mp4)
  /\ snd (VideoAgent.processVideo trimAscii examplePlanOf after)
     = Some (mkPlan [Mute] Mp4).
Proof.
  assert (Htype : ~ In "application/pdf" SUPPORTED_INPUT_TYPES)
    by (simpl; intuition discriminate).
  split; [exact Htype|].
  destruct (rejected_file_keeps_source trimAscii examplePlanOf blobUrl
              (VideoAgent.mkState "Make it grayscale"
                 (Some (VideoAgent.mkFile "holiday.MOV" "video/quicktime"))
                 (Some "blob:holiday.MOV") (Some (mkPlan [Mute] Mp4))
                 (Some "blob:result") None)
              (Some (VideoAgent.mkFile "notes.pdf" "application/pdf")))
    as [Hsource [_ [Hplan [_ [_ Hrun]]]]].
  - intros f Hf. inversion Hf. subst f. exact Htype.
  - repeat split; assumption.
Defined.

Lemma blank_prompt_still_runs_witness :
  let st := VideoAgent.mkState "   " (Some (VideoAgent.mkFile "holiday.MOV" "video/quicktime"))
              (Some "blob:holiday.MOV") None None None in
  trimAscii (VideoAgent.prompt st) = ""
  /\ snd (VideoAgent.processVideo trimAscii examplePlanOf st) = Some (mkPlan [] Mp4)
  /\ VideoAgent.error (fst (VideoAgent.processVideo trimAscii examplePlanOf st))
     = Some "Describe the edit you want to make.".
Proof.
  split; [reflexivity|].
  destruct (blank_prompt_still_runs trimAscii examplePlanOf
              (VideoAgent.mkState "   "
                 (Some (VideoAgent.mkFile "holiday.MOV" "video/quicktime"))
                 (Some "blob:holiday.MOV") None None None)
              (VideoAgent.mkFile "holiday.MOV" "video/quicktime")
              eq_refl eq_refl eq_refl)
    as [Hrun [_ Herror]].
  split; assumption.
Defined.
